(** * age v1 file encryption: recipients, identities and the file pipeline

    A shallow embedding of [pkg/age]: the scrypt and X25519 key-wrapping
    schemes ([scrypt.go], [x25519.go]) and the [Encrypt] / [Decrypt]
    pipeline ([age.go]).

    Conventions.
    - A Go [[]byte] is a [list byte].  Where the code tests a slice
      against [nil] (the file key in [Decrypt]) the value is a [slice],
      an [option bytes] whose [None] is Go's [nil].
    - A Go [int] is a [Z]; the one place where the code can leave the
      64-bit range, [1<<logN], has its wrap-around written out.
    - A Go [error] is an [option error] ([None] is [nil]); the sentinel
      [ErrIncorrectIdentity] is a constructor of its own, because the code
      compares against it with [==].
    - Code outside [pkg/age] (the header codec, the stream package, the
      AEAD and MAC helpers, Go's crypto, strconv and io packages) is a
      field of the class [Env]; the functions of [pkg/age] are defined over
      an arbitrary [Env].
    - Calls whose order or absence matters are logged: the scrypt schemes
      return the list of KDF calls they made, [Decrypt] and [Encrypt]
      return the list of events they went through. *)

From Stdlib Require Import List String Ascii Strings.Byte ZArith Lia Bool.
From Stdlib Require Import DecimalString Sorted.
Import ListNotations.

Local Open Scope string_scope.
Local Open Scope Z_scope.

(** ** Data *)

Definition bytes := list byte.

(** A byte slice that the code compares with [nil]. *)
Definition slice := option bytes.

(** Go errors of package [age]: the sentinel, and any error made with
    [errors.New] or [fmt.Errorf], or handed through from a library. *)
Inductive error : Type :=
| ErrIncorrectIdentity
| Err (msg : string).

(** [err.Error()], as [%v] prints it. *)
Definition Error_ (e : error) : string :=
  match e with
  | ErrIncorrectIdentity => "incorrect identity for recipient block"
  | Err msg => msg
  end.

(** [err == ErrIncorrectIdentity] *)
Definition is_incorrect (e : error) : bool :=
  match e with
  | ErrIncorrectIdentity => true
  | Err _ => false
  end.

(** Result of a call into a library outside [pkg/age]: a value, or a
    foreign error with its message.  A foreign error is never the
    sentinel of package [age]. *)
Inductive ext (A : Type) : Type :=
| ok (a : A)
| failed (msg : string).
Arguments ok {A} a.
Arguments failed {A} msg.

(** Result of a function of [pkg/age] that returns [(T, error)] and whose
    value is only used when the error is [nil]. *)
Inductive result (A : Type) : Type :=
| Ok (a : A)
| Error (e : error).
Arguments Ok {A} a.
Arguments Error {A} e.

(** [format.Recipient]: one stanza of the header. *)
Record Stanza : Type := mkStanza {
  Type_ : string;
  Args : list string;
  Body : bytes
}.

(** [format.Header] *)
Record Header : Type := mkHeader {
  Recipients : list Stanza;
  MAC : bytes
}.

(** [strconv.Itoa], and [%d] / [%v] of an [int]. *)
Definition Itoa (z : Z) : string := NilZero.string_of_int (Z.to_int z).

(** Go's [int] on a 64-bit platform. *)
Definition wrap_int (z : Z) : Z := (z + 2 ^ 63) mod 2 ^ 64 - 2 ^ 63.

(** [a << n] for a non-negative shift count. *)
Definition shl_int (a n : Z) : Z := wrap_int (Z.shiftl a n).

Definition bytes_eq_dec : forall a b : bytes, {a = b} + {a <> b} :=
  list_eq_dec Byte.byte_eq_dec.

(** [hmac.Equal]: equality of the two byte strings (the comparison time
    is not modelled). *)
Definition hmac_Equal (a b : bytes) : bool :=
  if bytes_eq_dec a b then true else false.

(** ** The collaborators *)

Class Env : Type := {
  (** crypto/rand: the state of the random source; [rand_Read n] fills a
      buffer of [n] bytes or fails. *)
  RNG : Type;
  rand_Read : nat -> RNG -> ext bytes * RNG;
  (** io *)
  Reader : Type;
  Writer : Type;
  WriteCloser : Type;
  io_ReadFull : nat -> Reader -> ext bytes * Reader;
  io_Write : bytes -> Writer -> option string * Writer;
  (** pkg/format *)
  EncodeToString : bytes -> string;
  DecodeString : string -> ext bytes;
  Parse : Reader -> ext (Header * Reader);
  Marshal : Header -> Writer -> option string * Writer;
  (** pkg/stream *)
  stream_NewReader : bytes -> Reader -> ext Reader;
  stream_NewWriter : bytes -> Writer -> ext WriteCloser;
  (** strconv *)
  Atoi : string -> ext Z;
  (** x/crypto *)
  Basepoint : bytes;
  X25519 : bytes -> bytes -> ext bytes;
  hkdf_sha256 : bytes -> bytes -> bytes -> nat -> ext bytes;
  scrypt_Key : bytes -> bytes -> Z -> Z -> Z -> Z -> ext bytes;
  (** primitives.go *)
  aeadEncrypt : bytes -> bytes -> ext bytes;
  aeadDecrypt : bytes -> bytes -> ext slice;
  headerMAC : bytes -> Header -> ext bytes;
  streamKey : bytes -> bytes -> bytes
}.

(** [chacha20poly1305.KeySize], [curve25519.PointSize] and
    [curve25519.ScalarSize] *)
Definition KeySize : nat := 32.
Definition PointSize : nat := 32.
Definition ScalarSize : nat := 32.

(** ** The interfaces of age.go *)

Section Interfaces.
Context {E : Env}.

(** [Identity], with [IdentityMatcher] as the optional [id_Match].
    [id_Unwrap] returns the Go pair [(fileKey, err)]. *)
Record Identity : Type := mkIdentity {
  id_Type : string;
  id_Unwrap : Stanza -> slice * option error;
  id_Match : option (Stanza -> option error)
}.

(** [Recipient]; [rcp_Wrap] draws from the random source. *)
Record Recipient : Type := mkRecipient {
  rcp_Type : string;
  rcp_Wrap : bytes -> RNG -> result Stanza * RNG
}.

End Interfaces.

(** ** scrypt.go *)

Definition scryptLabel : string := "age-encryption.org/v1/scrypt".

Record ScryptRecipient : Type := mkScryptRecipient {
  sr_password : bytes;
  workFactor : Z
}.

Record ScryptIdentity : Type := mkScryptIdentity {
  si_password : bytes;
  maxWorkFactor : Z
}.

(** One call of [scrypt.Key(password, salt, N, r, p, keyLen)]. *)
Inductive KdfCall : Type :=
| ScryptKey (password salt : bytes) (N r p keyLen : Z).

(** A function that returns normally, or panics with a message. *)
Inductive panics (A : Type) : Type :=
| Returns (a : A)
| Panic (msg : string).
Arguments Returns {A} a.
Arguments Panic {A} msg.

Definition NewScryptRecipient (password : string) : result ScryptRecipient :=
  if (String.length password =? 0)%nat then
    Error (Err "passphrase can't be empty")
  else
    Ok {| sr_password := list_byte_of_string password; workFactor := 18 |}.

Definition SetWorkFactor (r : ScryptRecipient) (logN : Z)
  : panics ScryptRecipient :=
  if (logN >? 30) || (logN <? 1) then
    Panic "age: SetWorkFactor called with illegal value"
  else
    Returns {| sr_password := sr_password r; workFactor := logN |}.

Definition NewScryptIdentity (password : string) : result ScryptIdentity :=
  if (String.length password =? 0)%nat then
    Error (Err "passphrase can't be empty")
  else
    Ok {| si_password := list_byte_of_string password; maxWorkFactor := 22 |}.

Definition SetMaxWorkFactor (i : ScryptIdentity) (logN : Z)
  : panics ScryptIdentity :=
  if (logN >? 30) || (logN <? 1) then
    Panic "age: SetMaxWorkFactor called with illegal value"
  else
    Returns {| si_password := si_password i; maxWorkFactor := logN |}.

Section Scrypt.
Context {E : Env}.

Definition ScryptRecipient_Wrap (r : ScryptRecipient) (fileKey : bytes)
    (rng : RNG) : (list KdfCall * result Stanza) * RNG :=
  match rand_Read 16 rng with
  | (failed msg, rng') => (([], Error (Err msg)), rng')
  | (ok salt, rng') =>
    let logN := workFactor r in
    let l := {| Type_ := "scrypt";
                Args := [EncodeToString salt; Itoa logN];
                Body := [] |} in
    let salt := (list_byte_of_string scryptLabel ++ salt)%list in
    let N := shl_int 1 logN in
    let call := ScryptKey (sr_password r) salt N 8 1 (Z.of_nat KeySize) in
    match scrypt_Key (sr_password r) salt N 8 1 (Z.of_nat KeySize) with
    | failed msg =>
      (([call], Error (Err ("failed to generate scrypt hash: " ++ msg))), rng')
    | ok k =>
      match aeadEncrypt k fileKey with
      | failed msg => (([call], Error (Err msg)), rng')
      | ok wrappedKey =>
        (([call], Ok {| Type_ := Type_ l; Args := Args l;
                        Body := wrappedKey |}), rng')
      end
    end
  end.

Definition ScryptIdentity_Unwrap (i : ScryptIdentity) (block : Stanza)
  : list KdfCall * (slice * option error) :=
  if negb (Type_ block =? "scrypt")%string then
    ([], (None, Some ErrIncorrectIdentity))
  else if negb (List.length (Args block) =? 2)%nat then
    ([], (None, Some (Err "invalid scrypt recipient block")))
  else
    match DecodeString (nth 0 (Args block) "") with
    | failed msg =>
      ([], (None, Some (Err ("failed to parse scrypt salt: " ++ msg))))
    | ok salt =>
      if negb (List.length salt =? 16)%nat then
        ([], (None, Some (Err "invalid scrypt recipient block")))
      else
        match Atoi (nth 1 (Args block) "") with
        | failed msg =>
          ([], (None,
                Some (Err ("failed to parse scrypt work factor: " ++ msg))))
        | ok logN =>
          if logN >? maxWorkFactor i then
            ([], (None,
                  Some (Err ("scrypt work factor too large: " ++ Itoa logN))))
          else if logN <=? 0 then
            ([], (None,
                  Some (Err ("invalid scrypt work factor: " ++ Itoa logN))))
          else
            let salt := (list_byte_of_string scryptLabel ++ salt)%list in
            let N := shl_int 1 logN in
            let call :=
              ScryptKey (si_password i) salt N 8 1 (Z.of_nat KeySize) in
            match scrypt_Key (si_password i) salt N 8 1 (Z.of_nat KeySize) with
            | failed msg =>
              ([call],
               (None, Some (Err ("failed to generate scrypt hash: " ++ msg))))
            | ok k =>
              match aeadDecrypt k (Body block) with
              | failed _ => ([call], (None, Some ErrIncorrectIdentity))
              | ok fileKey => ([call], (fileKey, None))
              end
            end
        end
    end.

(** [*ScryptRecipient] as a [Recipient] and [*ScryptIdentity] as an
    [Identity] (it has no [Match] method). *)
Definition ScryptRecipient_iface (r : ScryptRecipient) : Recipient :=
  {| rcp_Type := "scrypt";
     rcp_Wrap := fun fileKey rng =>
       let '((_, res), rng') := ScryptRecipient_Wrap r fileKey rng in
       (res, rng') |}.

Definition ScryptIdentity_iface (i : ScryptIdentity) : Identity :=
  {| id_Type := "scrypt";
     id_Unwrap := fun block => snd (ScryptIdentity_Unwrap i block);
     id_Match := None |}.

End Scrypt.

(** ** x25519.go *)

Definition x25519Label : string := "age-encryption.org/v1/X25519".

Record X25519Recipient : Type := mkX25519Recipient {
  theirPublicKey : bytes
}.

Record X25519Identity : Type := mkX25519Identity {
  secretKey : bytes;
  ourPublicKey : bytes
}.

Definition NewX25519Recipient (publicKey : bytes) : result X25519Recipient :=
  if negb (List.length publicKey =? PointSize)%nat then
    Error (Err "invalid X25519 public key")
  else
    Ok {| theirPublicKey := publicKey |}.

Section X25519.
Context {E : Env}.

Definition X25519Recipient_Wrap (r : X25519Recipient) (fileKey : bytes)
    (rng : RNG) : result Stanza * RNG :=
  match rand_Read ScalarSize rng with
  | (failed msg, rng') => (Error (Err msg), rng')
  | (ok ephemeral, rng') =>
    match X25519 ephemeral Basepoint with
    | failed msg => (Error (Err msg), rng')
    | ok ourPublicKey =>
      match X25519 ephemeral (theirPublicKey r) with
      | failed msg => (Error (Err msg), rng')
      | ok sharedSecret =>
        let l := {| Type_ := "X25519";
                    Args := [EncodeToString ourPublicKey];
                    Body := [] |} in
        let salt := (ourPublicKey ++ theirPublicKey r)%list in
        match hkdf_sha256 sharedSecret salt
                (list_byte_of_string x25519Label) KeySize with
        | failed msg => (Error (Err msg), rng')
        | ok wrappingKey =>
          match aeadEncrypt wrappingKey fileKey with
          | failed msg => (Error (Err msg), rng')
          | ok wrappedKey =>
            (Ok {| Type_ := Type_ l; Args := Args l; Body := wrappedKey |},
             rng')
          end
        end
      end
    end
  end.

(** The error of [curve25519.X25519] is dropped: on failure the public
    key stays the nil slice. *)
Definition NewX25519Identity (secretKey : bytes) : result X25519Identity :=
  if negb (List.length secretKey =? ScalarSize)%nat then
    Error (Err "invalid X25519 secret key")
  else
    Ok {| secretKey := secretKey;
          ourPublicKey := match X25519 secretKey Basepoint with
                          | ok p => p
                          | failed _ => []
                          end |}.

Definition X25519Identity_Unwrap (i : X25519Identity) (block : Stanza)
  : slice * option error :=
  if negb (Type_ block =? "X25519")%string then
    (None, Some ErrIncorrectIdentity)
  else if negb (List.length (Args block) =? 1)%nat then
    (None, Some (Err "invalid X25519 recipient block"))
  else
    match DecodeString (nth 0 (Args block) "") with
    | failed msg =>
      (None, Some (Err ("failed to parse X25519 recipient: " ++ msg)))
    | ok publicKey =>
      if negb (List.length publicKey =? PointSize)%nat then
        (None, Some (Err "invalid X25519 recipient block"))
      else
        match X25519 (secretKey i) publicKey with
        | failed msg =>
          (None, Some (Err ("invalid X25519 recipient: " ++ msg)))
        | ok sharedSecret =>
          let salt := (publicKey ++ ourPublicKey i)%list in
          match hkdf_sha256 sharedSecret salt
                  (list_byte_of_string x25519Label) KeySize with
          | failed msg => (None, Some (Err msg))
          | ok wrappingKey =>
            match aeadDecrypt wrappingKey (Body block) with
            | failed _ => (None, Some ErrIncorrectIdentity)
            | ok fileKey => (fileKey, None)
            end
          end
        end
    end.

(** The method [Recipient] of an X25519 identity. *)
Definition X25519Identity_Recipient (i : X25519Identity) : X25519Recipient :=
  {| theirPublicKey := ourPublicKey i |}.

Definition X25519Recipient_iface (r : X25519Recipient) : Recipient :=
  {| rcp_Type := "X25519"; rcp_Wrap := X25519Recipient_Wrap r |}.

Definition X25519Identity_iface (i : X25519Identity) : Identity :=
  {| id_Type := "X25519";
     id_Unwrap := X25519Identity_Unwrap i;
     id_Match := None |}.

End X25519.

(** ** age.go *)

(** What [Encrypt] and [Decrypt] do, in the order they do it.  The
    stanza and identity (or recipient) of a call are given by their
    positions in the header and in the caller's list. *)
Inductive Event : Type :=
| EvParse
| EvMatch (s i : nat) (err : option error)
| EvUnwrap (s i : nat) (fileKey : slice) (err : option error)
| EvHeaderMAC (fileKey : bytes)
| EvReadNonce
| EvNewReader
| EvRandRead (n : nat)
| EvWrap (i : nat) (err : option error)
| EvMarshal
| EvWriteNonce
| EvNewWriter.

(** How a run of a loop body, or of a loop, ends: the loop goes on (or
    ran to its end), [break RecipientsLoop], or [return nil, e].  The
    first two carry the current value of the variable [fileKey]. *)
Inductive control : Type :=
| Continue (fileKey : slice)
| Break (fileKey : slice)
| Return (e : error).

Definition tell {A : Type} (ev : Event) (m : list Event * A)
  : list Event * A :=
  (ev :: fst m, snd m).

Section Pipeline.
Context {E : Env}.

(** [Encrypt]: the loop over the recipients, from position [i0] on;
    [n] is [len(recipients)], [stanzas] is [hdr.Recipients] so far. *)
Fixpoint wrapLoop (n : nat) (fileKey : bytes) (i0 : nat)
    (recipients : list Recipient) (stanzas : list Stanza) (rng : RNG)
  : list Event * result (list Stanza) * RNG :=
  match recipients with
  | [] => ([], Ok stanzas, rng)
  | r :: rest =>
    if (rcp_Type r =? "scrypt")%string && negb (n =? 1)%nat then
      ([], Error (Err "an scrypt recipient must be the only one"), rng)
    else
      match rcp_Wrap r fileKey rng with
      | (Error e, rng') =>
        ([EvWrap i0 (Some e)],
         Error (Err ("failed to wrap key for recipient #"
                     ++ Itoa (Z.of_nat i0) ++ ": " ++ Error_ e)),
         rng')
      | (Ok block, rng') =>
        let '(tr, res, rng'') :=
          wrapLoop n fileKey (S i0) rest (stanzas ++ [block])%list rng' in
        (EvWrap i0 None :: tr, res, rng'')
      end
  end.

(** [Encrypt]: the statements after the loop: the header MAC, the
    header, the payload nonce, the stream. *)
Definition writeHeader (dst : Writer) (fileKey : bytes)
    (stanzas : list Stanza) (rng : RNG)
  : list Event * result WriteCloser * Writer * RNG :=
  match headerMAC fileKey {| Recipients := stanzas; MAC := [] |} with
  | failed msg =>
    ([EvHeaderMAC fileKey],
     Error (Err ("failed to compute header MAC: " ++ msg)), dst, rng)
  | ok mac =>
    let hdr := {| Recipients := stanzas; MAC := mac |} in
    match Marshal hdr dst with
    | (Some msg, dst1) =>
      ([EvHeaderMAC fileKey; EvMarshal],
       Error (Err ("failed to write header: " ++ msg)), dst1, rng)
    | (None, dst1) =>
      match rand_Read 16 rng with
      | (failed msg, rng1) =>
        ([EvHeaderMAC fileKey; EvMarshal; EvRandRead 16],
         Error (Err msg), dst1, rng1)
      | (ok nonce, rng1) =>
        match io_Write nonce dst1 with
        | (Some msg, dst2) =>
          ([EvHeaderMAC fileKey; EvMarshal; EvRandRead 16; EvWriteNonce],
           Error (Err ("failed to write nonce: " ++ msg)), dst2, rng1)
        | (None, dst2) =>
          let tr := [EvHeaderMAC fileKey; EvMarshal; EvRandRead 16;
                     EvWriteNonce; EvNewWriter] in
          match stream_NewWriter (streamKey fileKey nonce) dst2 with
          | failed msg => (tr, Error (Err msg), dst2, rng1)
          | ok w => (tr, Ok w, dst2, rng1)
          end
        end
      end
    end
  end.

(** [Encrypt(dst, recipients...)] returns its events, its result, and
    the states of [dst] and of the random source it leaves behind. *)
Definition Encrypt (dst : Writer) (recipients : list Recipient) (rng : RNG)
  : list Event * result WriteCloser * Writer * RNG :=
  if (List.length recipients =? 0)%nat then
    ([], Error (Err "no recipients specified"), dst, rng)
  else
    match rand_Read 16 rng with
    | (failed msg, rng1) => ([EvRandRead 16], Error (Err msg), dst, rng1)
    | (ok fileKey, rng1) =>
      match wrapLoop (List.length recipients) fileKey 0 recipients [] rng1 with
      | (tr, Error e, rng2) => (EvRandRead 16 :: tr, Error e, dst, rng2)
      | (tr, Ok stanzas, rng2) =>
        let '(tr', res, dst', rng3) := writeHeader dst fileKey stanzas rng2 in
        ((EvRandRead 16 :: tr ++ tr')%list, res, dst', rng3)
      end
    end.

(** [Decrypt]: the inner loop, over the identities from position [i0]
    on, for the stanza [r] at position [s]. *)
Fixpoint identitiesLoop (s : nat) (r : Stanza) (i0 : nat)
    (identities : list Identity) (fileKey : slice)
  : list Event * control :=
  match identities with
  | [] => ([], Continue fileKey)
  | i :: rest =>
    if negb (id_Type i =? Type_ r)%string then
      identitiesLoop s r (S i0) rest fileKey
    else
      let unwrap :=
        let '(fileKey', err) := id_Unwrap i r in
        match err with
        | Some e =>
          if is_incorrect e then
            tell (EvUnwrap s i0 fileKey' err)
                 (identitiesLoop s r (S i0) rest fileKey')
          else
            ([EvUnwrap s i0 fileKey' err], Return e)
        | None => ([EvUnwrap s i0 fileKey' None], Break fileKey')
        end in
      match id_Match i with
      | Some matcher =>
        match matcher r with
        | Some e =>
          if is_incorrect e then
            tell (EvMatch s i0 (Some e))
                 (identitiesLoop s r (S i0) rest fileKey)
          else
            ([EvMatch s i0 (Some e)], Return e)
        | None => tell (EvMatch s i0 None) unwrap
        end
      | None => unwrap
      end
  end.

(** [Decrypt]: the loop labelled [RecipientsLoop], over the stanzas from
    position [s0] on; [n] is [len(hdr.Recipients)]. *)
Fixpoint RecipientsLoop (n : nat) (identities : list Identity) (s0 : nat)
    (stanzas : list Stanza) (fileKey : slice) : list Event * control :=
  match stanzas with
  | [] => ([], Continue fileKey)
  | r :: rest =>
    if (Type_ r =? "scrypt")%string && negb (n =? 1)%nat then
      ([], Return (Err "an scrypt recipient must be the only one"))
    else
      match identitiesLoop s0 r 0 identities fileKey with
      | (tr, Continue fileKey') =>
        let '(tr', c) := RecipientsLoop n identities (S s0) rest fileKey' in
        ((tr ++ tr')%list, c)
      | (tr, c) => (tr, c)
      end
  end.

(** [Decrypt]: the statements after the loop, once [fileKey] is known
    not to be [nil]: the header MAC, the payload nonce, the stream. *)
Definition verifyAndOpen (hdr : Header) (payload : Reader) (fileKey : bytes)
  : list Event * result Reader :=
  match headerMAC fileKey hdr with
  | failed msg =>
    ([EvHeaderMAC fileKey],
     Error (Err ("failed to compute header MAC: " ++ msg)))
  | ok mac =>
    if negb (hmac_Equal mac (MAC hdr)) then
      ([EvHeaderMAC fileKey], Error (Err "bad header MAC"))
    else
      match io_ReadFull 16 payload with
      | (failed msg, _) =>
        ([EvHeaderMAC fileKey; EvReadNonce],
         Error (Err ("failed to read nonce: " ++ msg)))
      | (ok nonce, payload') =>
        match stream_NewReader (streamKey fileKey nonce) payload' with
        | failed msg =>
          ([EvHeaderMAC fileKey; EvReadNonce; EvNewReader], Error (Err msg))
        | ok rd => ([EvHeaderMAC fileKey; EvReadNonce; EvNewReader], Ok rd)
        end
      end
  end.

(** [Decrypt(src, identities...)] returns its events and its result. *)
Definition Decrypt (src : Reader) (identities : list Identity)
  : list Event * result Reader :=
  if (List.length identities =? 0)%nat then
    ([], Error (Err "no identities specified"))
  else
    match Parse src with
    | failed msg => ([EvParse], Error (Err ("failed to read header: " ++ msg)))
    | ok (hdr, payload) =>
      if (20 <? List.length (Recipients hdr))%nat then
        ([EvParse], Error (Err "too many recipients"))
      else
        let '(tr, c) :=
          RecipientsLoop (List.length (Recipients hdr)) identities 0
                         (Recipients hdr) None in
        match c with
        | Return e => (EvParse :: tr, Error e)
        | Continue None | Break None =>
          (EvParse :: tr, Error (Err "no identity matched a recipient"))
        | Continue (Some fileKey) | Break (Some fileKey) =>
          let '(tr', res) := verifyAndOpen hdr payload fileKey in
          ((EvParse :: tr ++ tr')%list, res)
        end
    end.

End Pipeline.

(** ** An executable environment

    Stand-ins for the collaborators that compute, used to run the
    pipeline on concrete inputs: a random source that is a tape of
    bytes, streams that are lists, and toy versions of the cryptographic
    primitives that keep their algebraic laws (two X25519 key pairs agree
    on a shared secret, AEAD decryption inverts encryption under the same
    key and rejects a wrong tag, the codec round-trips). *)
Module TestEnv.

(** A source: the header its first lines parse to (if they parse) and
    the bytes after the header. *)
Record TReader : Type := mkTReader {
  rd_header : option Header;
  rd_rest : bytes
}.

(** What has been written to a destination. *)
Inductive Chunk : Type :=
| WHeader (hdr : Header)
| WBytes (b : bytes).

Definition t_rand_Read (n : nat) (tape : bytes) : ext bytes * bytes :=
  if (List.length tape <? n)%nat then (failed "rand: no entropy left", tape)
  else (ok (firstn n tape), skipn n tape).

Definition t_ReadFull (n : nat) (rd : TReader) : ext bytes * TReader :=
  if (List.length (rd_rest rd) <? n)%nat then
    (failed "unexpected EOF", {| rd_header := None; rd_rest := [] |})
  else
    (ok (firstn n (rd_rest rd)),
     {| rd_header := None; rd_rest := skipn n (rd_rest rd) |}).

Definition t_Parse (rd : TReader) : ext (Header * TReader) :=
  match rd_header rd with
  | Some hdr => ok (hdr, {| rd_header := None; rd_rest := rd_rest rd |})
  | None => failed "malformed header"
  end.

Fixpoint t_digits (s : string) (acc : Z) : option Z :=
  match s with
  | EmptyString => Some acc
  | String c s' =>
    let n := Z.of_nat (nat_of_ascii c) in
    if (48 <=? n) && (n <=? 57) then t_digits s' (10 * acc + (n - 48))
    else None
  end.

Definition t_Atoi (s : string) : ext Z :=
  let bad := failed ("strconv.Atoi: parsing " ++ s ++ ": invalid syntax") in
  let number (s' : string) (sign : Z) :=
    match s' with
    | EmptyString => bad
    | _ => match t_digits s' 0 with
           | Some z => ok (sign * z)
           | None => bad
           end
    end in
  match s with
  | String "-"%char s' => number s' (-1)
  | String "+"%char s' => number s' 1
  | _ => number s 1
  end.

Definition bmax (a b : byte) : byte :=
  if (Byte.to_N a <=? Byte.to_N b)%N then b else a.

Fixpoint bmaxs (a b : bytes) : bytes :=
  match a, b with
  | x :: a', y :: b' => bmax x y :: bmaxs a' b'
  | _, _ => []
  end.

Definition all_zero (b : bytes) : bool :=
  forallb (fun x => (Byte.to_N x =? 0)%N) b.

Definition t_Basepoint : bytes := x09 :: repeat x00 31.

Definition t_X25519 (scalar point : bytes) : ext bytes :=
  if negb (List.length scalar =? 32)%nat then failed "bad scalar length"
  else if negb (List.length point =? 32)%nat then failed "bad point length"
  else
    let q := bmaxs scalar point in
    if all_zero q then failed "bad input point: low order point" else ok q.

Definition t_hkdf (secret salt info : bytes) (L : nat) : ext bytes :=
  ok (firstn L (secret ++ salt ++ info ++ repeat x00 L)%list).

Definition t_scrypt_Key (password salt : bytes) (N r p keyLen : Z)
  : ext bytes :=
  if N <=? 1 then failed "scrypt: N must be > 1 and a power of 2"
  else
    let L := Z.to_nat keyLen in
    ok (firstn L (password ++ salt ++ repeat x00 L)%list).

Definition t_aeadEncrypt (key plaintext : bytes) : ext bytes :=
  if negb (List.length key =? 32)%nat then
    failed "chacha20poly1305: bad key length"
  else ok (plaintext ++ firstn 16 key)%list.

Definition t_aeadDecrypt (key ciphertext : bytes) : ext slice :=
  if negb (List.length key =? 32)%nat then
    failed "chacha20poly1305: bad key length"
  else if (List.length ciphertext <? 16)%nat then
    failed "chacha20poly1305: message authentication failed"
  else
    let n := (List.length ciphertext - 16)%nat in
    if bytes_eq_dec (skipn n ciphertext) (firstn 16 key) then
      match firstn n ciphertext with
      | [] => ok None
      | p => ok (Some p)
      end
    else failed "chacha20poly1305: message authentication failed".

Definition t_headerMAC (fileKey : bytes) (hdr : Header) : ext bytes :=
  ok (firstn 32 (fileKey ++ List.concat (map Body (Recipients hdr))
                 ++ repeat x00 32)%list).

#[export] Instance env : Env := {|
  RNG := bytes;
  rand_Read := t_rand_Read;
  Reader := TReader;
  Writer := list Chunk;
  WriteCloser := bytes * list Chunk;
  io_ReadFull := t_ReadFull;
  io_Write := fun b w => (None, (w ++ [WBytes b])%list);
  EncodeToString := string_of_list_byte;
  DecodeString := fun s => ok (list_byte_of_string s);
  Parse := t_Parse;
  Marshal := fun hdr w => (None, (w ++ [WHeader hdr])%list);
  stream_NewReader := fun key rd => ok rd;
  stream_NewWriter := fun key w => ok (key, w);
  Atoi := t_Atoi;
  Basepoint := t_Basepoint;
  X25519 := t_X25519;
  hkdf_sha256 := t_hkdf;
  scrypt_Key := t_scrypt_Key;
  aeadEncrypt := t_aeadEncrypt;
  aeadDecrypt := t_aeadDecrypt;
  headerMAC := t_headerMAC;
  streamKey := fun fileKey nonce => (fileKey ++ nonce)%list
|}.

End TestEnv.

(** ** Test vectors *)
Module Vectors.
Import TestEnv.

Definition fileKey0 : bytes := repeat x07 16.
Definition nonce0 : bytes := repeat x09 16.

(** An X25519 identity and the stanza that wraps [fileKey0] to it with
    the ephemeral scalar [repeat x11 32]. *)
Definition alice_secret : bytes := repeat x42 32.

Definition alice : X25519Identity :=
  {| secretKey := alice_secret; ourPublicKey := repeat x42 32 |}.

Definition stanza_alice : Stanza :=
  {| Type_ := "X25519";
     Args := [string_of_list_byte (repeat x11 32)];
     Body := (fileKey0 ++ repeat x42 16)%list |}.


(** A scrypt recipient with work factor 10, its stanza for [fileKey0]
    with the salt [repeat x05 16], and identities with the same
    passphrase that accept work factors up to 22 and up to 9. *)
Definition pass_recipient : ScryptRecipient :=
  {| sr_password := list_byte_of_string "password"; workFactor := 10 |}.

Definition stanza_scrypt : Stanza :=
  {| Type_ := "scrypt";
     Args := [string_of_list_byte (repeat x05 16); "10"];
     Body := (fileKey0
              ++ firstn 16 (list_byte_of_string "password"
                            ++ list_byte_of_string scryptLabel))%list |}.

Definition pass_identity : ScryptIdentity :=
  {| si_password := list_byte_of_string "password"; maxWorkFactor := 22 |}.

Definition pass_identity9 : ScryptIdentity :=
  {| si_password := list_byte_of_string "password"; maxWorkFactor := 9 |}.

(** The header MAC of the test environment covers the file key and the
    bodies; for headers whose first stanza is one of the two above it is
    [repeat x07 32]. *)
Definition mac0 : bytes := repeat x07 32.

(** A header with an X25519 stanza followed by a scrypt stanza, and the
    same stanzas in the other order. *)
Definition mixed_header : Header :=
  {| Recipients := [stanza_alice; stanza_scrypt]; MAC := mac0 |}.

Definition mixed_header_rev : Header :=
  {| Recipients := [stanza_scrypt; stanza_alice]; MAC := mac0 |}.

Definition alice_header : Header :=
  {| Recipients := [stanza_alice]; MAC := mac0 |}.

Definition scrypt_header : Header :=
  {| Recipients := [stanza_scrypt]; MAC := mac0 |}.

Definition empty_header : Header := {| Recipients := []; MAC := mac0 |}.

(** [alice_header] with another MAC. *)
Definition forged_header : Header :=
  {| Recipients := [stanza_alice]; MAC := repeat x00 32 |}.

(** A stanza of a type that no identity here has. *)
Definition stanza_other : Stanza :=
  {| Type_ := "ssh-ed25519"; Args := []; Body := [] |}.

Definition long_header : Header :=
  {| Recipients := repeat stanza_alice 21; MAC := mac0 |}.

(** An identity with a [Match] method that answers incorrect-identity
    to every stanza but those whose first argument is "mine". *)
Definition probe : Identity :=
  {| id_Type := "X25519";
     id_Unwrap := fun _ => (None, Some (Err "probe: not implemented"));
     id_Match := Some (fun r =>
       if (nth 0 (Args r) "" =? "mine")%string then None
       else Some ErrIncorrectIdentity) |}.

Definition two_header : Header :=
  {| Recipients := [stanza_other; stanza_alice]; MAC := mac0 |}.

(** A source that parses to [hdr] and goes on with the payload nonce. *)
Definition source (hdr : Header) : TReader :=
  {| rd_header := Some hdr; rd_rest := nonce0 |}.

End Vectors.

(** ** The scan of [Decrypt], as the specification words it

    "For each stanza in header order, try identities in caller-supplied
    order whose type equals the stanza type ... scanning is stanza-major,
    identity-minor; the first successful unwrap wins, and further stanzas
    are not tried."  The scan is a flat list of steps, built before
    anything is called, and run from left to right. *)

Inductive Step : Type :=
| Reject (s : nat)
| Try (s : nat) (r : Stanza) (i : nat) (id : Identity).

(** The elements of a list with their positions, counted from [k]. *)
Definition indexed_from {A : Type} (k : nat) (l : list A) : list (nat * A) :=
  combine (seq k (List.length l)) l.

(** The identities to try for the stanza [r] at position [s]: those of
    the stanza's type, in the caller's order. *)
Definition candidates (s : nat) (r : Stanza) (i0 : nat)
    (identities : list Identity) : list Step :=
  map (fun p => Try s r (fst p) (snd p))
      (filter (fun p => (id_Type (snd p) =? Type_ r)%string)
              (indexed_from i0 identities)).

(** Stanza-major, identity-minor; a scrypt stanza in a header of [n <> 1]
    stanzas rejects the header when the scan comes to it. *)
Definition plan_from (n : nat) (identities : list Identity) (s0 : nat)
    (stanzas : list Stanza) : list Step :=
  flat_map
    (fun p =>
       ((if (Type_ (snd p) =? "scrypt")%string && negb (n =? 1)%nat
         then [Reject (fst p)] else [])
        ++ candidates (fst p) (snd p) 0 identities)%list)
    (indexed_from s0 stanzas).

Definition scan_plan (identities : list Identity) (stanzas : list Stanza)
  : list Step :=
  plan_from (List.length stanzas) identities 0 stanzas.

(** Running the steps: [Match] (when the identity has it) before
    [Unwrap]; incorrect-identity goes to the next step, any other error
    is returned, a successful [Unwrap] ends the scan. *)
Fixpoint run_plan (plan : list Step) (fileKey : slice)
  : list Event * control :=
  match plan with
  | [] => ([], Continue fileKey)
  | Reject _ :: _ =>
    ([], Return (Err "an scrypt recipient must be the only one"))
  | Try s r i id :: rest =>
    let unwrap :=
      match id_Unwrap id r with
      | (fileKey', Some e) =>
        if is_incorrect e then
          tell (EvUnwrap s i fileKey' (Some e)) (run_plan rest fileKey')
        else ([EvUnwrap s i fileKey' (Some e)], Return e)
      | (fileKey', None) => ([EvUnwrap s i fileKey' None], Break fileKey')
      end in
    match id_Match id with
    | None => unwrap
    | Some matcher =>
      match matcher r with
      | None => tell (EvMatch s i None) unwrap
      | Some e =>
        if is_incorrect e then
          tell (EvMatch s i (Some e)) (run_plan rest fileKey)
        else ([EvMatch s i (Some e)], Return e)
      end
    end
  end.

(** The place of a step in the scan: the position of its stanza, then 0
    for the rejection and [i + 1] for the identity at position [i]. *)
Definition step_key (st : Step) : nat * nat :=
  match st with
  | Reject s => (s, 0%nat)
  | Try s _ i _ => (s, S i)
  end.

(** Stanza-major, identity-minor. *)
Definition step_lt (a b : Step) : Prop :=
  (fst (step_key a) < fst (step_key b))%nat
  \/ (fst (step_key a) = fst (step_key b)
      /\ (snd (step_key a) < snd (step_key b))%nat).

(** The result of a loop that ran to its end, followed by [k]; a
    [break] or a [return] is final. *)
Definition and_then (m : list Event * control)
    (k : slice -> list Event * control) : list Event * control :=
  match m with
  | (tr, Continue fileKey) => ((tr ++ fst (k fileKey))%list, snd (k fileKey))
  | (tr, c) => (tr, c)
  end.

(** [Decrypt] after a scan that gave the events [tr] and ended in [c]. *)
Definition after_scan {E : Env} (hdr : Header) (payload : Reader)
    (tr : list Event) (c : control) : list Event * result Reader :=
  match c with
  | Return e => (EvParse :: tr, Error e)
  | Continue None | Break None =>
    (EvParse :: tr, Error (Err "no identity matched a recipient"))
  | Continue (Some fileKey) | Break (Some fileKey) =>
    ((EvParse :: tr ++ fst (verifyAndOpen hdr payload fileKey))%list,
     snd (verifyAndOpen hdr payload fileKey))
  end.

(** ** Predicates used in the statements *)

(** The error of [Encrypt] for a failed [Wrap] of recipient [i]. *)
Definition wrap_failure (i : nat) (e : error) : error :=
  Err ("failed to wrap key for recipient #" ++ Itoa (Z.of_nat i) ++ ": "
       ++ Error_ e).


(** The scrypt identities that [NewScryptIdentity] and
    [SetMaxWorkFactor] can build. *)
Definition ScryptIdentity_wf (i : ScryptIdentity) : Prop :=
  1 <= maxWorkFactor i <= 30.

(** A header that breaks the scrypt policy: a stanza of type "scrypt"
    and at least one other stanza. *)
Definition scrypt_mixed (hdr : Header) : Prop :=
  (exists r, In r (Recipients hdr) /\ Type_ r = "scrypt")
  /\ List.length (Recipients hdr) <> 1%nat.

(** The events of [Decrypt]'s scan: calls of [Match] and [Unwrap]. *)
Definition is_scan_event (ev : Event) : bool :=
  match ev with
  | EvMatch _ _ _ | EvUnwrap _ _ _ _ => true
  | _ => false
  end.

(** The events of [Encrypt] that write to the destination. *)
Definition is_write_event (ev : Event) : bool :=
  match ev with
  | EvMarshal | EvWriteNonce | EvNewWriter => true
  | _ => false
  end.

(** The identity [i] answers incorrect-identity for the stanza [r],
    through [Match] when it has it and else through [Unwrap], and leaves
    no file key behind. *)
Definition answers_incorrect (i : Identity) (r : Stanza) : Prop :=
  match id_Match i with
  | Some matcher =>
    matcher r = Some ErrIncorrectIdentity
    \/ (matcher r = None /\ id_Unwrap i r = (None, Some ErrIncorrectIdentity))
  | None => id_Unwrap i r = (None, Some ErrIncorrectIdentity)
  end.

Section Laws.
Context {E : Env}.

(** [X25519Identity.Unwrap] comes to the AEAD tag check of the stanza's
    body, and the check fails. *)
Definition X25519_tag_check_fails (i : X25519Identity) (block : Stanza)
  : Prop :=
  exists publicKey sharedSecret wrappingKey msg,
    List.length (Args block) = 1%nat
    /\ DecodeString (nth 0 (Args block) "") = ok publicKey
    /\ List.length publicKey = PointSize
    /\ X25519 (secretKey i) publicKey = ok sharedSecret
    /\ hkdf_sha256 sharedSecret (publicKey ++ ourPublicKey i)%list
         (list_byte_of_string x25519Label) KeySize = ok wrappingKey
    /\ aeadDecrypt wrappingKey (Body block) = failed msg.

(** What the X25519 round trip needs of the primitives. *)
Record PrimitiveLaws : Prop := {
  (** two key pairs derive the same shared secret *)
  X25519_agree : forall a b A B,
    X25519 a Basepoint = ok A -> X25519 b Basepoint = ok B ->
    X25519 a B = X25519 b A;
  (** a scalar of the right length has a public key *)
  X25519_base : forall a,
    List.length a = ScalarSize -> exists A, X25519 a Basepoint = ok A;
  (** a point has [PointSize] bytes *)
  X25519_size : forall a P Q, X25519 a P = ok Q -> List.length Q = PointSize;
  (** unpadded base64 decodes what it encoded *)
  codec_roundtrip : forall b, DecodeString (EncodeToString b) = ok b;
  (** AEAD decryption under the same key returns the plaintext *)
  aead_roundtrip : forall key plaintext ciphertext,
    plaintext <> [] ->
    aeadEncrypt key plaintext = ok ciphertext ->
    aeadDecrypt key ciphertext = ok (Some plaintext)
}.

End Laws.

(** ** The rest of x25519.go *)

Section X25519Keys.
Context {E : Env}.

Definition GenerateX25519Identity (rng : RNG)
  : result X25519Identity * RNG :=
  match rand_Read ScalarSize rng with
  | (failed msg, rng') => (Error (Err ("internal error: " ++ msg)), rng')
  | (ok secretKey, rng') => (NewX25519Identity secretKey, rng')
  end.

End X25519Keys.

(** The text side of the keys: [pkg/bech32], [%q] of [fmt] and
    [strings.ToUpper]. *)
Class TextEnv : Type := {
  bech32_Encode : string -> bytes -> ext string;
  bech32_Decode : string -> ext (string * bytes);
  quote : string -> string;
  strings_ToUpper : string -> string
}.

Section X25519Text.
Context {E : Env} {T : TextEnv}.

Definition ParseX25519Recipient (s : string) : result X25519Recipient :=
  match bech32_Decode s with
  | failed msg =>
    Error (Err ("malformed recipient " ++ quote s ++ ": " ++ msg))
  | ok (t, k) =>
    if negb (t =? "age")%string then
      Error (Err ("malformed recipient " ++ quote s ++ ": invalid type "
                  ++ quote t))
    else
      match NewX25519Recipient k with
      | Error e =>
        Error (Err ("malformed recipient " ++ quote s ++ ": " ++ Error_ e))
      | Ok r => Ok r
      end
  end.

(** [String] of a recipient; the error of [bech32.Encode] is dropped,
    and the string it comes with is then the empty one. *)
Definition X25519Recipient_String (r : X25519Recipient) : string :=
  match bech32_Encode "age" (theirPublicKey r) with
  | ok s => s
  | failed _ => ""
  end.

Definition ParseX25519Identity (s : string) : result X25519Identity :=
  match bech32_Decode s with
  | failed msg =>
    Error (Err ("malformed secret key " ++ quote s ++ ": " ++ msg))
  | ok (t, k) =>
    if negb (t =? "AGE-SECRET-KEY-")%string then
      Error (Err ("malformed secret key " ++ quote s ++ ": invalid type "
                  ++ quote t))
    else
      match NewX25519Identity k with
      | Error e =>
        Error (Err ("malformed secret key " ++ quote s ++ ": " ++ Error_ e))
      | Ok r => Ok r
      end
  end.

Definition X25519Identity_String (i : X25519Identity) : string :=
  strings_ToUpper
    match bech32_Encode "AGE-SECRET-KEY-" (secretKey i) with
    | ok s => s
    | failed _ => ""
    end.

(** What the text round trips need of [pkg/bech32]: decoding gives back
    what was encoded, and the encoding under the upper-case prefix of
    secret keys is upper-case already. *)
Record Bech32Laws : Prop := {
  bech32_roundtrip : forall hrp data s,
    bech32_Encode hrp data = ok s -> bech32_Decode s = ok (hrp, data);
  bech32_upper : forall data s,
    bech32_Encode "AGE-SECRET-KEY-" data = ok s -> strings_ToUpper s = s
}.

End X25519Text.

(** ** More on the pipeline *)

Section PipelineLaws.
Context {E : Env}.

(** The recipients [rs] wrap [fileKey] one after the other, in order,
    into the stanzas [ss], taking the random source from [rng] to
    [rng']. *)
Inductive wraps (fileKey : bytes)
  : RNG -> list Recipient -> list Stanza -> RNG -> Prop :=
| wraps_nil (rng : RNG) : wraps fileKey rng [] [] rng
| wraps_cons (rng rng1 rng2 : RNG) (r : Recipient) (s : Stanza)
    (rs : list Recipient) (ss : list Stanza) :
    rcp_Wrap r fileKey rng = (Ok s, rng1) ->
    wraps fileKey rng1 rs ss rng2 ->
    wraps fileKey rng (r :: rs) (s :: ss) rng2.

(** What the round trips through [Wrap], [Unwrap], [Encrypt] and
    [Decrypt] need of the collaborators besides [PrimitiveLaws]. *)
Record WrapLaws : Prop := {
  (** [rand.Read] fills the whole buffer *)
  rand_full : forall n rng b rng',
    rand_Read n rng = (ok b, rng') -> List.length b = n;
  (** the header MAC is computed over the header without its MAC *)
  headerMAC_without_MAC : forall fileKey stanzas mac mac',
    headerMAC fileKey {| Recipients := stanzas; MAC := mac |}
    = headerMAC fileKey {| Recipients := stanzas; MAC := mac' |};
  (** [strconv.Atoi] reads back what [strconv.Itoa] printed, for the
      work factors a recipient can have *)
  Atoi_Itoa : forall z, 1 <= z <= 30 -> Atoi (Itoa z) = ok z;
  (** unpadded base64 decodes what it encoded *)
  wl_codec : forall b, DecodeString (EncodeToString b) = ok b;
  (** AEAD decryption under the same key returns the plaintext *)
  wl_aead : forall key plaintext ciphertext,
    plaintext <> [] ->
    aeadEncrypt key plaintext = ok ciphertext ->
    aeadDecrypt key ciphertext = ok (Some plaintext)
}.

(** What a successful [Encrypt] did, step by step. *)
Definition encrypted (dst : Writer) (recipients : list Recipient)
    (rng : RNG) (fileKey : bytes) (hdr : Header) (nonce : bytes)
    (w : WriteCloser) (dst' : Writer) (rng' : RNG) : Prop :=
  exists rng1 rng2 dst1,
    rand_Read 16 rng = (ok fileKey, rng1)
    /\ wraps fileKey rng1 recipients (Recipients hdr) rng2
    /\ headerMAC fileKey {| Recipients := Recipients hdr; MAC := [] |}
       = ok (MAC hdr)
    /\ Marshal hdr dst = (None, dst1)
    /\ rand_Read 16 rng2 = (ok nonce, rng')
    /\ io_Write nonce dst1 = (None, dst')
    /\ stream_NewWriter (streamKey fileKey nonce) dst' = ok w.

(** The identity [id] opens what the recipient [r] wraps: a stanza of
    [r] for a 16-byte file key has the type of [r], which is the type of
    [id], and [id], which has no [Match], unwraps it to the file key. *)
Definition opens (id : Identity) (r : Recipient) : Prop :=
  id_Type id = rcp_Type r
  /\ id_Match id = None
  /\ forall fileKey rng stanza rng',
       List.length fileKey = 16%nat ->
       rcp_Wrap r fileKey rng = (Ok stanza, rng') ->
       Type_ stanza = rcp_Type r
       /\ id_Unwrap id stanza = (Some fileKey, None).

End PipelineLaws.

(** ** The scan of [Decrypt], clause by clause

    The clauses of the scan stated on what the methods of the identities
    return, with the sentinel compared by equality. *)






Section ScanClauses.
Context {E : Env}.


End ScanClauses.

(** ** An executable text environment *)
Module TestText.

(** [strings.ToUpper] on ASCII letters. *)
Definition upper_ascii (c : ascii) : ascii :=
  let n := nat_of_ascii c in
  if (97 <=? n)%nat && (n <=? 122)%nat then ascii_of_nat (n - 32) else c.

Fixpoint t_ToUpper (s : string) : string :=
  match s with
  | EmptyString => EmptyString
  | String c s' => String (upper_ascii c) (t_ToUpper s')
  end.

(** Two letters from "A" to "P" for a byte. *)
Definition letters_of_byte (b : byte) : string :=
  let n := Byte.to_nat b in
  String (ascii_of_nat (65 + n / 16))
         (String (ascii_of_nat (65 + n mod 16)) EmptyString).

Fixpoint letters_of_bytes (d : bytes) : string :=
  match d with
  | [] => EmptyString
  | b :: d' => letters_of_byte b ++ letters_of_bytes d'
  end.

Fixpoint bytes_of_letters (s : string) : option bytes :=
  match s with
  | EmptyString => Some []
  | String hi (String lo s') =>
    let h := (nat_of_ascii hi - 65)%nat in
    let l := (nat_of_ascii lo - 65)%nat in
    match Byte.of_nat (16 * h + l), bytes_of_letters s' with
    | Some b, Some d => Some (b :: d)
    | _, _ => None
    end
  | String _ EmptyString => None
  end.

Fixpoint split_at (n : nat) (s : string) : option (string * string) :=
  match n, s with
  | O, _ => Some (EmptyString, s)
  | S n', String c s' =>
    match split_at n' s' with
    | Some (a, b) => Some (String c a, b)
    | None => None
    end
  | S _, EmptyString => None
  end.

(** The prefix, with its length in front, then the letters of the
    data. *)
Definition t_Encode (hrp : string) (data : bytes) : ext string :=
  if (String.length hrp <? 256)%nat then
    ok (String (ascii_of_nat (String.length hrp))
               (hrp ++ letters_of_bytes data))
  else failed "bech32: prefix too long".

Definition t_Decode (s : string) : ext (string * bytes) :=
  match s with
  | EmptyString => failed "bech32: empty"
  | String c rest =>
    match split_at (nat_of_ascii c) rest with
    | None => failed "bech32: short"
    | Some (hrp, letters) =>
      match bytes_of_letters letters with
      | Some data => ok (hrp, data)
      | None => failed "bech32: invalid character"
      end
    end
  end.

#[export] Instance text : TextEnv := {|
  bech32_Encode := t_Encode;
  bech32_Decode := t_Decode;
  quote := fun s =>
    String (ascii_of_nat 34) (s ++ String (ascii_of_nat 34) EmptyString);
  strings_ToUpper := t_ToUpper
|}.

End TestText.

(** ** More test vectors *)
Module Vectors2.
Import TestEnv Vectors.

(** A tape for [Encrypt]: the file key, an ephemeral scalar for each of
    [k] X25519 recipients, the payload nonce. *)
Definition tape (k : nat) : bytes :=
  (fileKey0 ++ repeat x11 (32 * k) ++ nonce0)%list.

Definition alice_recipient : Recipient :=
  X25519Recipient_iface (X25519Identity_Recipient alice).

(** An identity that returns a key together with incorrect-identity,
    and one whose [Unwrap] succeeds with the nil key. *)
Definition leaky : Identity :=
  {| id_Type := "X25519";
     id_Unwrap := fun _ => (Some fileKey0, Some ErrIncorrectIdentity);
     id_Match := None |}.

Definition hollow : Identity :=
  {| id_Type := "X25519";
     id_Unwrap := fun _ => (None, None);
     id_Match := None |}.

(** The KDF call behind [stanza_scrypt]. *)
Definition calls10 : list KdfCall :=
  [ScryptKey (list_byte_of_string "password")
             (list_byte_of_string scryptLabel ++ repeat x05 16)%list
             1024 8 1 32].


(** An X25519 recipient whose key is the nil slice: its [Wrap] fails in
    X25519. *)
Definition bad_recipient : Recipient :=
  X25519Recipient_iface {| theirPublicKey := [] |}.

(** Two stanzas for [alice]. *)
Definition twice_header : Header :=
  {| Recipients := [stanza_alice; stanza_alice]; MAC := mac0 |}.

(** What [Encrypt] to [alice_recipient] alone leaves behind on the
    tape [tape 1]: its events, the destination, the stream writer. *)
Definition events1 : list Event :=
  [EvRandRead 16; EvWrap 0 None; EvHeaderMAC fileKey0; EvMarshal;
   EvRandRead 16; EvWriteNonce; EvNewWriter].

Definition written (hdr : Header) : list Chunk :=
  [WHeader hdr; WBytes nonce0].

Definition writer (hdr : Header) : bytes * list Chunk :=
  ((fileKey0 ++ nonce0)%list, written hdr).

(** What [Decrypt] of [source alice_header] with [alice] goes through,
    and the reader it returns. *)
Definition events_alice : list Event :=
  [EvParse; EvUnwrap 0 0 (Some fileKey0) None; EvHeaderMAC fileKey0;
   EvReadNonce; EvNewReader].

Definition rest_reader : TReader := {| rd_header := None; rd_rest := [] |}.

Definition payload0 : TReader :=
  {| rd_header := None; rd_rest := nonce0 |}.

End Vectors2.

(** * Properties *)

(** ** The scan of [Decrypt] *)

Section ScanProperties.
Context {E : Env}.

Lemma candidates_cons (s : nat) (r : Stanza) (i0 : nat) (i : Identity)
    (identities : list Identity) :
  candidates s r i0 (i :: identities) =
  if (id_Type i =? Type_ r)%string
  then Try s r i0 i :: candidates s r (S i0) identities
  else candidates s r (S i0) identities.
Proof.
  unfold candidates, indexed_from. cbn [List.length seq combine filter snd].
  destruct (id_Type i =? Type_ r)%string; reflexivity.
Qed.

Lemma and_then_tell (ev : Event) (m : list Event * control)
    (k : slice -> list Event * control) :
  and_then (tell ev m) k = tell ev (and_then m k).
Proof.
  destruct m as [tr [fk | fk | e]]; reflexivity.
Qed.

Lemma identitiesLoop_plan (identities : list Identity) :
  forall (s : nat) (r : Stanza) (i0 : nat) (fileKey : slice)
         (rest : list Step),
    run_plan (candidates s r i0 identities ++ rest) fileKey =
    and_then (identitiesLoop s r i0 identities fileKey) (run_plan rest).
Proof.
  induction identities as [| i ids IH]; intros s r i0 fileKey rest.
  - cbn. destruct (run_plan rest fileKey); reflexivity.
  - rewrite candidates_cons. cbn [identitiesLoop].
    destruct (id_Type i =? Type_ r)%string; cbn [negb]; [| apply IH].
    cbn [app run_plan].
    destruct (id_Match i) as [matcher |].
    + destruct (matcher r) as [e |].
      * destruct (is_incorrect e); [| reflexivity].
        rewrite and_then_tell, IH. reflexivity.
      * rewrite and_then_tell. f_equal.
        destruct (id_Unwrap i r) as [fk [e |]]; [| reflexivity].
        destruct (is_incorrect e); [| reflexivity].
        rewrite and_then_tell, IH. reflexivity.
    + destruct (id_Unwrap i r) as [fk [e |]]; [| reflexivity].
      destruct (is_incorrect e); [| reflexivity].
      rewrite and_then_tell, IH. reflexivity.
Qed.

Lemma RecipientsLoop_plan (n : nat) (identities : list Identity)
    (stanzas : list Stanza) :
  forall (s0 : nat) (fileKey : slice),
    RecipientsLoop n identities s0 stanzas fileKey =
    run_plan (plan_from n identities s0 stanzas) fileKey.
Proof.
  induction stanzas as [| r rest IH]; intros s0 fileKey; [reflexivity |].
  unfold plan_from, indexed_from.
  cbn [List.length seq combine flat_map fst snd RecipientsLoop].
  destruct ((Type_ r =? "scrypt")%string && negb (n =? 1)%nat);
    [reflexivity |].
  cbn [app]. rewrite identitiesLoop_plan.
  destruct (identitiesLoop s0 r 0 identities fileKey) as [tr [fk | fk | e]];
    cbn [and_then]; try reflexivity.
  rewrite IH. unfold plan_from, indexed_from.
  destruct (run_plan _ fk); reflexivity.
Qed.

(** *** The plan: what is in it, and in which order *)

Lemma plan_from_cons (n : nat) (identities : list Identity) (s0 : nat)
    (r : Stanza) (rest : list Stanza) :
  plan_from n identities s0 (r :: rest) =
  (((if (Type_ r =? "scrypt")%string && negb (n =? 1)%nat
     then [Reject s0] else [])
    ++ candidates s0 r 0 identities)
   ++ plan_from n identities (S s0) rest)%list.
Proof. reflexivity. Qed.

Lemma in_try_candidates (s s' : nat) (r r' : Stanza) (i : nat)
    (id : Identity) (identities : list Identity) :
  forall i0,
    In (Try s r i id) (candidates s' r' i0 identities) <->
    s = s' /\ r = r' /\ (i0 <= i)%nat
    /\ nth_error identities (i - i0) = Some id
    /\ id_Type id = Type_ r.
Proof.
  induction identities as [| j ids IH]; intros i0.
  - cbn. split; [intros [] | intros (_ & _ & _ & H & _)].
    destruct (i - i0)%nat; discriminate H.
  - rewrite candidates_cons. split.
    + intros Hin.
      assert (Htail : In (Try s r i id) (candidates s' r' (S i0) ids) ->
                      s = s' /\ r = r' /\ (i0 <= i)%nat
                      /\ nth_error (j :: ids) (i - i0) = Some id
                      /\ id_Type id = Type_ r).
      { intros H. apply IH in H. destruct H as (-> & -> & Hle & Hnth & Hty).
        replace (i - i0)%nat with (S (i - S i0)) by lia.
        repeat split; auto; lia. }
      destruct (String.eqb_spec (id_Type j) (Type_ r')) as [Hty | Hty];
        [| auto].
      destruct Hin as [Heq | Hin]; [| auto].
      injection Heq as <- <- <- <-. rewrite Nat.sub_diag. auto.
    + intros (-> & -> & Hle & Hnth & Hty).
      destruct (Nat.eq_dec i i0) as [-> | Hne].
      * rewrite Nat.sub_diag in Hnth. injection Hnth as ->.
        apply String.eqb_eq in Hty. rewrite Hty. apply in_eq.
      * assert (Hin : In (Try s' r' i id) (candidates s' r' (S i0) ids)).
        { apply IH. replace (i - i0)%nat with (S (i - S i0)) in Hnth by lia.
          repeat split; auto; lia. }
        destruct (id_Type j =? Type_ r')%string; auto using in_cons.
Qed.

Lemma not_reject_candidates (s s' : nat) (r : Stanza) (i0 : nat)
    (identities : list Identity) :
  ~ In (Reject s) (candidates s' r i0 identities).
Proof.
  unfold candidates. intros Hin. apply in_map_iff in Hin.
  destruct Hin as (? & H & _). discriminate H.
Qed.

Lemma in_try_plan_from (n : nat) (identities : list Identity) (s : nat)
    (r : Stanza) (i : nat) (id : Identity) (stanzas : list Stanza) :
  forall s0,
    In (Try s r i id) (plan_from n identities s0 stanzas) <->
    (s0 <= s)%nat
    /\ nth_error stanzas (s - s0) = Some r
    /\ nth_error identities i = Some id
    /\ id_Type id = Type_ r.
Proof.
  induction stanzas as [| r' rest IH]; intros s0.
  - cbn. split; [intros [] | intros (_ & H & _)].
    destruct (s - s0)%nat; discriminate H.
  - rewrite plan_from_cons, !in_app_iff, IH, in_try_candidates.
    rewrite Nat.sub_0_r. split.
    + intros [[Hin | (-> & -> & _ & Hi & Hty)] | (Hle & Hr & Hi & Hty)].
      * destruct (_ && _); [destruct Hin as [H | []]; discriminate H
                           | destruct Hin].
      * rewrite Nat.sub_diag. auto.
      * replace (s - s0)%nat with (S (s - S s0)) by lia.
        repeat split; auto; lia.
    + intros (Hle & Hr & Hi & Hty).
      destruct (Nat.eq_dec s s0) as [-> | Hne].
      * rewrite Nat.sub_diag in Hr. injection Hr as ->.
        left. right. repeat split; auto; lia.
      * right. replace (s - s0)%nat with (S (s - S s0)) in Hr by lia.
        repeat split; auto; lia.
Qed.

Lemma in_reject_plan_from (n : nat) (identities : list Identity) (s : nat)
    (stanzas : list Stanza) :
  forall s0,
    In (Reject s) (plan_from n identities s0 stanzas) <->
    (s0 <= s)%nat
    /\ exists r, nth_error stanzas (s - s0) = Some r
                 /\ Type_ r = "scrypt" /\ n <> 1%nat.
Proof.
  induction stanzas as [| r' rest IH]; intros s0.
  - cbn. split; [intros [] | intros (_ & r & H & _)].
    destruct (s - s0)%nat; discriminate H.
  - rewrite plan_from_cons, !in_app_iff, IH. split.
    + intros [[Hin | Hin] | (Hle & r & Hr & Hty & Hn)].
      * destruct (String.eqb_spec (Type_ r') "scrypt") as [Hty | Hty];
          [| destruct Hin].
        destruct (Nat.eqb_spec n 1) as [Hn | Hn]; [destruct Hin |].
        destruct Hin as [Heq | []]. injection Heq as <-.
        rewrite Nat.sub_diag. split; [lia |]. exists r'. auto.
      * destruct (not_reject_candidates _ _ _ _ _ Hin).
      * replace (s - s0)%nat with (S (s - S s0)) by lia.
        split; [lia |]. exists r. auto.
    + intros (Hle & r & Hr & Hty & Hn).
      destruct (Nat.eq_dec s s0) as [-> | Hne].
      * rewrite Nat.sub_diag in Hr. injection Hr as ->.
        left. left. apply String.eqb_eq in Hty. apply Nat.eqb_neq in Hn.
        rewrite Hty, Hn. apply in_eq.
      * right. replace (s - s0)%nat with (S (s - S s0)) in Hr by lia.
        split; [lia |]. exists r. auto.
Qed.

Lemma StronglySorted_app {A : Type} (R : A -> A -> Prop) (l1 l2 : list A) :
  StronglySorted R l1 ->
  StronglySorted R l2 ->
  (forall x y, In x l1 -> In y l2 -> R x y) ->
  StronglySorted R (l1 ++ l2).
Proof.
  intros H1 H2 H12. induction H1 as [| a l1 Hs IH Ha]; [exact H2 |].
  cbn. constructor.
  - apply IH. intros x y Hx Hy. apply H12; [right |]; assumption.
  - apply Forall_app. split; [exact Ha |].
    apply Forall_forall. intros y Hy. apply H12; [left; reflexivity | exact Hy].
Qed.

Lemma candidates_keys (s : nat) (r : Stanza) (identities : list Identity) :
  forall i0 st,
    In st (candidates s r i0 identities) ->
    fst (step_key st) = s /\ (i0 < snd (step_key st))%nat.
Proof.
  intros i0 [s' | s' r' i id] Hin.
  - destruct (not_reject_candidates _ _ _ _ _ Hin).
  - apply in_try_candidates in Hin. destruct Hin as (-> & _ & Hle & _).
    cbn. split; [reflexivity | lia].
Qed.

Lemma candidates_sorted (s : nat) (r : Stanza) (identities : list Identity) :
  forall i0, StronglySorted step_lt (candidates s r i0 identities).
Proof.
  induction identities as [| j ids IH]; intros i0; [constructor |].
  rewrite candidates_cons.
  destruct (id_Type j =? Type_ r)%string; [| apply IH].
  constructor; [apply IH |].
  apply Forall_forall. intros st Hin.
  destruct (candidates_keys _ _ _ _ _ Hin) as [Hs Hi].
  right. cbn. split; [symmetry; exact Hs | exact Hi].
Qed.

Lemma plan_from_keys (n : nat) (identities : list Identity)
    (stanzas : list Stanza) :
  forall s0 st,
    In st (plan_from n identities s0 stanzas) ->
    (s0 <= fst (step_key st))%nat.
Proof.
  intros s0 [s | s r i id] Hin; cbn.
  - apply in_reject_plan_from in Hin. tauto.
  - apply in_try_plan_from in Hin. tauto.
Qed.

Lemma plan_from_sorted (n : nat) (identities : list Identity)
    (stanzas : list Stanza) :
  forall s0, StronglySorted step_lt (plan_from n identities s0 stanzas).
Proof.
  induction stanzas as [| r rest IH]; intros s0; [constructor |].
  rewrite plan_from_cons. apply StronglySorted_app; [| apply IH |].
  - apply StronglySorted_app; [| apply candidates_sorted |].
    + destruct (_ && _); repeat constructor.
    + intros x y Hx Hy.
      destruct (_ && _); [| destruct Hx].
      destruct Hx as [<- | []].
      destruct (candidates_keys _ _ _ _ _ Hy) as [Hs Hi].
      right. cbn. split; [symmetry; exact Hs | lia].
  - intros x y Hx Hy. left.
    apply plan_from_keys in Hy.
    apply in_app_or in Hx. destruct Hx as [Hx | Hx].
    + destruct (_ && _); [| destruct Hx].
      destruct Hx as [<- | []]. cbn. lia.
    + destruct (candidates_keys _ _ _ _ _ Hx) as [-> _]. lia.
Qed.

End ScanProperties.

Section DecryptProperties.
Context {E : Env}.

Lemma length_eqb_0 {A : Type} (l : list A) :
  l <> [] -> (List.length l =? 0)%nat = false.
Proof. destruct l; [congruence | reflexivity]. Qed.

(** [Decrypt] on a source that parses, with at most 20 stanzas: the
    loop, then the statements after it. *)
Lemma Decrypt_parsed (src : Reader) (identities : list Identity)
    (hdr : Header) (payload : Reader) :
  identities <> [] ->
  Parse src = ok (hdr, payload) ->
  (List.length (Recipients hdr) <= 20)%nat ->
  Decrypt src identities =
  after_scan hdr payload
    (fst (RecipientsLoop (List.length (Recipients hdr)) identities 0
                         (Recipients hdr) None))
    (snd (RecipientsLoop (List.length (Recipients hdr)) identities 0
                         (Recipients hdr) None)).
Proof.
  intros Hids Hparse Hlen. unfold Decrypt.
  rewrite (length_eqb_0 _ Hids), Hparse.
  destruct (Nat.ltb_spec 20 (List.length (Recipients hdr))) as [Hgt |_];
    [lia |].
  destruct (RecipientsLoop _ identities 0 (Recipients hdr) None)
    as [tr [[fk |] | [fk |] | e]]; cbn [fst snd after_scan];
    try reflexivity;
    destruct (verifyAndOpen hdr payload fk); reflexivity.
Qed.

(** The scan logs calls of [Match] and [Unwrap] and nothing else. *)
Lemma run_plan_events (plan : list Step) :
  forall fileKey,
    Forall (fun ev => is_scan_event ev = true) (fst (run_plan plan fileKey)).
Proof.
  induction plan as [| [s | s r i id] rest IH]; intros fileKey; cbn;
    [constructor | constructor |].
  assert (Hunwrap : Forall (fun ev => is_scan_event ev = true)
    (fst (match id_Unwrap id r with
          | (fileKey', Some e) =>
            if is_incorrect e then
              tell (EvUnwrap s i fileKey' (Some e)) (run_plan rest fileKey')
            else ([EvUnwrap s i fileKey' (Some e)], Return e)
          | (fileKey', None) => ([EvUnwrap s i fileKey' None], Break fileKey')
          end))).
  { destruct (id_Unwrap id r) as [fk [e |]]; [destruct (is_incorrect e) |];
      cbn; repeat constructor; apply IH. }
  destruct (id_Match id) as [matcher |]; [| exact Hunwrap].
  destruct (matcher r) as [e |]; [destruct (is_incorrect e) |]; cbn;
    repeat constructor; solve [apply IH | exact Hunwrap].
Qed.

Lemma RecipientsLoop_events (n : nat) (identities : list Identity)
    (s0 : nat) (stanzas : list Stanza) (fileKey : slice) :
  Forall (fun ev => is_scan_event ev = true)
         (fst (RecipientsLoop n identities s0 stanzas fileKey)).
Proof. rewrite RecipientsLoop_plan. apply run_plan_events. Qed.








End DecryptProperties.

(** ** The test vectors are what the schemes produce *)

Section VectorChecks.
Import TestEnv Vectors.

Example alice_is_new : NewX25519Identity alice_secret = Ok alice.
Proof. reflexivity. Qed.

Example stanza_alice_is_wrap :
  X25519Recipient_Wrap (X25519Identity_Recipient alice) fileKey0
                       (repeat x11 32)
  = (Ok stanza_alice, []).
Proof. reflexivity. Qed.

Example stanza_scrypt_is_wrap :
  ScryptRecipient_Wrap pass_recipient fileKey0 (repeat x05 16)
  = (([ScryptKey (list_byte_of_string "password")
                 (list_byte_of_string scryptLabel ++ repeat x05 16)%list
                 1024 8 1 32],
      Ok stanza_scrypt), []).
Proof. reflexivity. Qed.

Example pass_recipient_is_new :
  NewScryptRecipient "password"
  = Ok {| sr_password := list_byte_of_string "password"; workFactor := 18 |}
  /\ SetWorkFactor
       {| sr_password := list_byte_of_string "password"; workFactor := 18 |}
       10
     = Returns pass_recipient.
Proof. split; reflexivity. Qed.

Example mixed_header_mac :
  headerMAC fileKey0 {| Recipients := Recipients mixed_header; MAC := [] |}
  = ok (MAC mixed_header).
Proof. reflexivity. Qed.

Example scrypt_roundtrip :
  snd (Decrypt (source scrypt_header) [ScryptIdentity_iface pass_identity])
  = Ok {| rd_header := None; rd_rest := [] |}.
Proof. reflexivity. Qed.

Example scan_of_two_stanzas :
  Decrypt (source two_header)
          [probe; ScryptIdentity_iface pass_identity;
           X25519Identity_iface alice]
  = ([EvParse; EvMatch 1 0 (Some ErrIncorrectIdentity);
      EvUnwrap 1 2 (Some fileKey0) None; EvHeaderMAC fileKey0;
      EvReadNonce; EvNewReader],
     Ok {| rd_header := None; rd_rest := [] |}).
Proof. reflexivity. Qed.

Example scan_plan_of_two_stanzas :
  scan_plan [probe; ScryptIdentity_iface pass_identity;
             X25519Identity_iface alice]
            (Recipients two_header)
  = [Try 1 stanza_alice 0 probe;
     Try 1 stanza_alice 2 (X25519Identity_iface alice)].
Proof. reflexivity. Qed.

Example scrypt_work_factor_cap :
  snd (Decrypt (source scrypt_header) [ScryptIdentity_iface pass_identity9])
  = Error (Err "scrypt work factor too large: 10").
Proof. reflexivity. Qed.

End VectorChecks.

Section DecryptHeaderMAC.
Context {E : Env}.

Lemma hmac_Equal_true (a b : bytes) : hmac_Equal a b = true <-> a = b.
Proof.
  unfold hmac_Equal. destruct (bytes_eq_dec a b); split; congruence.
Qed.

Lemma not_scan_event_not_in (ev : Event) (tr : list Event) :
  is_scan_event ev = false ->
  Forall (fun ev' => is_scan_event ev' = true) tr ->
  ~ In ev tr.
Proof.
  intros Hev Htr Hin. rewrite Forall_forall in Htr.
  specialize (Htr ev Hin). congruence.
Qed.

(** The statements after the loop start with the header MAC. *)
Lemma verifyAndOpen_starts (hdr : Header) (payload : Reader)
    (fileKey : bytes) :
  exists tr, fst (verifyAndOpen hdr payload fileKey) = EvHeaderMAC fileKey :: tr.
Proof.
  unfold verifyAndOpen.
  destruct (headerMAC fileKey hdr) as [mac | msg]; [| eexists; reflexivity].
  destruct (hmac_Equal mac (MAC hdr)); cbn [negb]; [| eexists; reflexivity].
  destruct (io_ReadFull 16 payload) as [[nonce | msg] payload'];
    [| eexists; reflexivity].
  destruct (stream_NewReader _ payload'); eexists; reflexivity.
Qed.

Lemma verifyAndOpen_mismatch (hdr : Header) (payload : Reader)
    (fileKey mac : bytes) :
  headerMAC fileKey hdr = ok mac ->
  mac <> MAC hdr ->
  verifyAndOpen hdr payload fileKey
  = ([EvHeaderMAC fileKey], Error (Err "bad header MAC")).
Proof.
  intros Hmac Hne. unfold verifyAndOpen. rewrite Hmac.
  destruct (hmac_Equal mac (MAC hdr)) eqn:Heq; [| reflexivity].
  apply hmac_Equal_true in Heq. contradiction.
Qed.

Lemma verifyAndOpen_nonce (hdr : Header) (payload : Reader)
    (fileKey : bytes) :
  In EvReadNonce (fst (verifyAndOpen hdr payload fileKey)) ->
  headerMAC fileKey hdr = ok (MAC hdr)
  /\ exists tr,
       fst (verifyAndOpen hdr payload fileKey)
       = EvHeaderMAC fileKey :: EvReadNonce :: tr.
Proof.
  unfold verifyAndOpen.
  destruct (headerMAC fileKey hdr) as [mac | msg].
  - destruct (hmac_Equal mac (MAC hdr)) eqn:Heq; cbn [negb].
    + apply hmac_Equal_true in Heq. subst mac. intros _. split; [reflexivity |].
      destruct (io_ReadFull 16 payload) as [[nonce | msg] payload'];
        [| eexists; reflexivity].
      destruct (stream_NewReader _ payload'); eexists; reflexivity.
    + cbn. intros [H | []]. discriminate H.
  - cbn. intros [H | []]. discriminate H.
Qed.

(** The run of [Decrypt] that the scrypt check misses: the first stanza
    is not a scrypt stanza and the first identity unwraps it.  Whatever
    the other stanzas are, [Decrypt] goes on to the header MAC. *)
Lemma Decrypt_first_stanza_unwrapped (src : Reader) (hdr : Header)
    (payload : Reader) (r : Stanza) (rest : list Stanza) (i : Identity)
    (identities : list Identity) (fileKey : bytes) :
  Parse src = ok (hdr, payload) ->
  Recipients hdr = r :: rest ->
  (List.length (Recipients hdr) <= 20)%nat ->
  Type_ r <> "scrypt" ->
  id_Type i = Type_ r ->
  id_Match i = None ->
  id_Unwrap i r = (Some fileKey, None) ->
  Decrypt src (i :: identities)
  = (EvParse :: EvUnwrap 0 0 (Some fileKey) None
       :: fst (verifyAndOpen hdr payload fileKey),
     snd (verifyAndOpen hdr payload fileKey)).
Proof.
  intros Hparse Hrs Hlen Hty Hid Hmatch Hunwrap.
  rewrite (Decrypt_parsed src (i :: identities) hdr payload);
    [| discriminate | exact Hparse | exact Hlen].
  rewrite Hrs. cbn [RecipientsLoop identitiesLoop].
  apply String.eqb_neq in Hty. rewrite Hty. cbn [andb].
  rewrite Hid, String.eqb_refl, Hmatch, Hunwrap. reflexivity.
Qed.

(** A scrypt stanza at the head of a header with more stanzas is
    rejected before any identity is tried. *)
Lemma Decrypt_scrypt_first_rejected (src : Reader) (hdr : Header)
    (payload : Reader) (r : Stanza) (rest : list Stanza)
    (identities : list Identity) :
  identities <> [] ->
  Parse src = ok (hdr, payload) ->
  Recipients hdr = r :: rest ->
  rest <> [] ->
  (List.length (Recipients hdr) <= 20)%nat ->
  Type_ r = "scrypt" ->
  Decrypt src identities
  = ([EvParse], Error (Err "an scrypt recipient must be the only one")).
Proof.
  intros Hids Hparse Hrs Hrest Hlen Hty.
  rewrite (Decrypt_parsed src identities hdr payload Hids Hparse Hlen).
  rewrite Hrs. cbn [RecipientsLoop List.length].
  rewrite Hty. destruct rest; [congruence | reflexivity].
Qed.

(** C6. Once the scan has left a file key, [Decrypt] computes the header
    MAC under that key as its next step; if the MAC differs from the one
    stored in the header, [Decrypt] fails with "bad header MAC" without
    reading the payload nonce; and in every run in which the nonce is
    read, the header MAC was computed just before and equals the stored
    one. *)
Theorem Decrypt_MAC_then_nonce :
  (forall (src : Reader) (identities : list Identity) (hdr : Header)
          (payload : Reader) (tr : list Event) (c : control)
          (fileKey : bytes),
      identities <> [] ->
      Parse src = ok (hdr, payload) ->
      (List.length (Recipients hdr) <= 20)%nat ->
      RecipientsLoop (List.length (Recipients hdr)) identities 0
                     (Recipients hdr) None = (tr, c) ->
      c = Continue (Some fileKey) \/ c = Break (Some fileKey) ->
      (exists tr',
          fst (Decrypt src identities)
          = (EvParse :: tr ++ EvHeaderMAC fileKey :: tr')%list)
      /\ (forall mac,
             headerMAC fileKey hdr = ok mac ->
             mac <> MAC hdr ->
             Decrypt src identities
             = ((EvParse :: tr ++ [EvHeaderMAC fileKey])%list,
                Error (Err "bad header MAC"))))
  /\ (forall (src : Reader) (identities : list Identity),
         In EvReadNonce (fst (Decrypt src identities)) ->
         exists hdr payload fileKey tr tr',
           Parse src = ok (hdr, payload)
           /\ headerMAC fileKey hdr = ok (MAC hdr)
           /\ Forall (fun ev => is_scan_event ev = true) tr
           /\ fst (Decrypt src identities)
              = (EvParse :: tr
                 ++ EvHeaderMAC fileKey :: EvReadNonce :: tr')%list).
Proof.
  split.
  - intros src identities hdr payload tr c fileKey Hids Hparse Hlen Hloop Hc.
    rewrite (Decrypt_parsed src identities hdr payload Hids Hparse Hlen).
    rewrite Hloop. cbn [fst snd].
    assert (Hafter : after_scan hdr payload tr c
                     = ((EvParse :: tr
                         ++ fst (verifyAndOpen hdr payload fileKey))%list,
                        snd (verifyAndOpen hdr payload fileKey))).
    { destruct Hc as [-> | ->]; reflexivity. }
    rewrite Hafter. cbn [fst]. split.
    + destruct (verifyAndOpen_starts hdr payload fileKey) as [tr' ->].
      exists tr'. reflexivity.
    + intros mac Hmac Hne.
      rewrite (verifyAndOpen_mismatch hdr payload fileKey mac Hmac Hne).
      reflexivity.
  - intros src identities. unfold Decrypt.
    destruct (List.length identities =? 0)%nat; [intros [] |].
    destruct (Parse src) as [[hdr payload] | msg];
      [| intros [H | []]; discriminate H].
    destruct (20 <? List.length (Recipients hdr))%nat;
      [intros [H | []]; discriminate H |].
    pose proof (RecipientsLoop_events (List.length (Recipients hdr))
                  identities 0 (Recipients hdr) None) as Hev.
    destruct (RecipientsLoop _ identities 0 (Recipients hdr) None)
      as [tr c]. cbn [fst] in Hev.
    assert (Hno : ~ In EvReadNonce tr)
      by (apply not_scan_event_not_in; [reflexivity | exact Hev]).
    assert (Hkey : forall fileKey,
      In EvReadNonce
         (fst (let '(tr', res) := verifyAndOpen hdr payload fileKey in
               ((EvParse :: tr ++ tr')%list, res))) ->
      exists hdr0 payload0 fileKey0 tr0 tr',
        ok (hdr, payload) = ok (hdr0, payload0)
        /\ headerMAC fileKey0 hdr0 = ok (MAC hdr0)
        /\ Forall (fun ev => is_scan_event ev = true) tr0
        /\ fst (let '(tr', res) := verifyAndOpen hdr payload fileKey in
                ((EvParse :: tr ++ tr')%list, res))
           = (EvParse :: tr0
              ++ EvHeaderMAC fileKey0 :: EvReadNonce :: tr')%list).
    { intros fileKey.
      pose proof (verifyAndOpen_nonce hdr payload fileKey) as Hn.
      destruct (verifyAndOpen hdr payload fileKey) as [tr' res].
      cbn [fst] in *. intros [H | Hin]; [discriminate H |].
      apply in_app_or in Hin. destruct Hin as [Hin | Hin]; [contradiction |].
      destruct (Hn Hin) as [Hmac [tr'' ->]].
      exists hdr, payload, fileKey, tr, tr''. auto. }
    destruct c as [[fk |] | [fk |] | e]; try apply Hkey;
      cbn [fst]; intros [H | Hin]; try discriminate H; contradiction.
Qed.

End DecryptHeaderMAC.

Section DecryptLimits.
Context {E : Env}.

Lemma run_plan_all_incorrect (plan : list Step) :
  (forall s, ~ In (Reject s) plan) ->
  (forall s r i id, In (Try s r i id) plan -> answers_incorrect id r) ->
  snd (run_plan plan None) = Continue None.
Proof.
  induction plan as [| [s | s r i id] rest IH]; intros Hrej Hinc;
    [reflexivity | exfalso; apply (Hrej s), in_eq |].
  assert (IH' : snd (run_plan rest None) = Continue None).
  { apply IH; [intros s' H; apply (Hrej s'), in_cons, H |].
    intros s' r' i' id' H. apply (Hinc s' r' i' id'), in_cons, H. }
  specialize (Hinc s r i id (in_eq _ _)). unfold answers_incorrect in Hinc.
  cbn [run_plan]. destruct (id_Match id) as [matcher |].
  - destruct Hinc as [-> | [-> ->]]; exact IH'.
  - rewrite Hinc. exact IH'.
Qed.

(** C8. A header that parses with more than 20 stanzas makes [Decrypt]
    fail, whatever the identities are, with no call of [Match] or
    [Unwrap] among its events (so no scrypt key is derived); with a
    non-empty identity list the error is "too many recipients" and the
    only event is the parse. *)
Theorem Decrypt_too_many_stanzas (src : Reader) (identities : list Identity)
    (hdr : Header) (payload : Reader) :
  Parse src = ok (hdr, payload) ->
  (20 < List.length (Recipients hdr))%nat ->
  (exists e, snd (Decrypt src identities) = Error e)
  /\ Forall (fun ev => is_scan_event ev = false)
            (fst (Decrypt src identities))
  /\ (identities <> [] ->
      Decrypt src identities = ([EvParse], Error (Err "too many recipients"))).
Proof.
  intros Hparse Hlen. unfold Decrypt. rewrite Hparse.
  apply Nat.ltb_lt in Hlen. rewrite Hlen.
  destruct identities as [| i ids]; cbn.
  - repeat split; [eexists; reflexivity | constructor | congruence].
  - repeat split; [eexists; reflexivity | repeat constructor].
Qed.

(** C9. With a non-empty identity list, a header that parses with no
    stanza at all makes [Decrypt] fail with "no identity matched a
    recipient", and not with an error about the header; it is the error
    of a header (within the stanza limit and the scrypt policy) whose
    stanzas every identity of a matching type answers with
    incorrect-identity. *)
Theorem Decrypt_no_stanza :
  (forall (src : Reader) (identities : list Identity) (hdr : Header)
          (payload : Reader),
      identities <> [] ->
      Parse src = ok (hdr, payload) ->
      Recipients hdr = [] ->
      Decrypt src identities
      = ([EvParse], Error (Err "no identity matched a recipient")))
  /\ (forall (src : Reader) (identities : list Identity) (hdr : Header)
             (payload : Reader),
         identities <> [] ->
         Parse src = ok (hdr, payload) ->
         (List.length (Recipients hdr) <= 20)%nat ->
         ~ scrypt_mixed hdr ->
         (forall r i, In r (Recipients hdr) -> In i identities ->
                      id_Type i = Type_ r -> answers_incorrect i r) ->
         snd (Decrypt src identities)
         = Error (Err "no identity matched a recipient")).
Proof.
  split.
  - intros src identities hdr payload Hids Hparse Hnil.
    rewrite (Decrypt_parsed src identities hdr payload Hids Hparse);
      rewrite Hnil; [reflexivity | cbn; lia].
  - intros src identities hdr payload Hids Hparse Hlen Hpol Hinc.
    rewrite (Decrypt_parsed src identities hdr payload Hids Hparse Hlen).
    rewrite RecipientsLoop_plan.
    rewrite run_plan_all_incorrect; [reflexivity | |].
    + intros s Hin. apply in_reject_plan_from in Hin.
      destruct Hin as (_ & r & Hnth & Hty & Hn).
      apply Hpol. split; [| exact Hn].
      exists r. split; [eapply nth_error_In, Hnth | exact Hty].
    + intros s r i id Hin. apply in_try_plan_from in Hin.
      destruct Hin as (_ & Hr & Hi & Hty).
      eauto using nth_error_In.
Qed.

End DecryptLimits.

(** ** [Encrypt] *)

Section EncryptProperties.
Context {E : Env}.

Lemma wrapLoop_scrypt_mixed (n : nat) (fileKey : bytes)
    (recipients : list Recipient) :
  (exists r, In r recipients /\ rcp_Type r = "scrypt") ->
  n <> 1%nat ->
  forall i0 stanzas rng,
    exists tr e rng',
      wrapLoop n fileKey i0 recipients stanzas rng = (tr, Error e, rng').
Proof.
  intros Hex Hn.
  induction recipients as [| r rest IH]; intros i0 stanzas rng;
    [destruct Hex as (? & [] & _) |].
  cbn [wrapLoop].
  destruct (String.eqb_spec (rcp_Type r) "scrypt") as [Hty | Hty].
  - apply Nat.eqb_neq in Hn. rewrite Hn. cbn. eauto.
  - cbn [andb]. destruct (rcp_Wrap r fileKey rng) as [[block | e] rng'];
      [| eauto].
    destruct IH with (i0 := S i0) (stanzas := (stanzas ++ [block])%list)
                     (rng := rng') as (tr & e & rng'' & ->).
    + destruct Hex as (r' & [<- | Hin] & Hr'); [contradiction | eauto].
    + eauto.
Qed.

Lemma wrapLoop_events (n : nat) (fileKey : bytes)
    (recipients : list Recipient) :
  forall i0 stanzas rng,
    Forall (fun ev => exists i err, ev = EvWrap i err)
           (fst (fst (wrapLoop n fileKey i0 recipients stanzas rng))).
Proof.
  induction recipients as [| r rest IH]; intros i0 stanzas rng;
    cbn [wrapLoop]; [constructor |].
  destruct (_ && _); [constructor |].
  destruct (rcp_Wrap r fileKey rng) as [[block | e] rng'];
    [| repeat econstructor].
  specialize (IH (S i0) (stanzas ++ [block])%list rng').
  destruct (wrapLoop n fileKey (S i0) rest _ rng') as [[tr res] rng''].
  cbn [fst] in *. constructor; eauto.
Qed.

Lemma wrapLoop_wrap_failure (n : nat) (fileKey : bytes)
    (recipients : list Recipient) (i : nat) (e : error) :
  forall i0 stanzas rng,
    In (EvWrap i (Some e))
       (fst (fst (wrapLoop n fileKey i0 recipients stanzas rng))) ->
    snd (fst (wrapLoop n fileKey i0 recipients stanzas rng))
    = Error (wrap_failure i e)
    /\ (i0 <= i)%nat
    /\ exists r rng_i,
         nth_error recipients (i - i0) = Some r
         /\ fst (rcp_Wrap r fileKey rng_i) = Error e.
Proof.
  induction recipients as [| r rest IH]; intros i0 stanzas rng;
    cbn [wrapLoop]; [intros [] |].
  destruct (_ && _); [intros [] |].
  destruct (rcp_Wrap r fileKey rng) as [[block | e'] rng'] eqn:Hwrap.
  - specialize (IH (S i0) (stanzas ++ [block])%list rng').
    destruct (wrapLoop n fileKey (S i0) rest _ rng') as [[tr res] rng''].
    cbn [fst snd] in *. intros [H | Hin]; [discriminate H |].
    destruct (IH Hin) as (Hres & Hle & r' & rng_i & Hnth & Hfail).
    split; [exact Hres |]. split; [lia |].
    exists r', rng_i. split; [| exact Hfail].
    replace (i - i0)%nat with (S (i - S i0)) by lia. exact Hnth.
  - cbn [fst snd]. intros [H | []]. injection H as <- <-.
    split; [reflexivity |]. split; [lia |].
    exists r, rng. rewrite Nat.sub_diag, Hwrap. auto.
Qed.

Lemma writeHeader_events (dst : Writer) (fileKey : bytes)
    (stanzas : list Stanza) (rng : RNG) :
  Forall (fun ev => forall i err, ev <> EvWrap i err)
         (fst (fst (fst (writeHeader dst fileKey stanzas rng)))).
Proof.
  unfold writeHeader.
  destruct (headerMAC fileKey _) as [mac | msg];
    [| repeat constructor; discriminate].
  destruct (Marshal _ dst) as [[msg |] dst1];
    [repeat constructor; discriminate |].
  destruct (rand_Read 16 rng) as [[nonce | msg] rng1];
    [| repeat constructor; discriminate].
  destruct (io_Write nonce dst1) as [[msg |] dst2];
    [repeat constructor; discriminate |].
  destruct (stream_NewWriter _ dst2); repeat constructor; discriminate.
Qed.

(** The loop of [Encrypt] at the first recipient whose [Wrap] fails. *)
Lemma wrapLoop_fails_at (n : nat) (fileKey : bytes) (r : Recipient)
    (post : list Recipient) (e : error) (rng' : RNG)
    (pre : list Recipient) (ss : list Stanza) (rng rng_i : RNG) :
  wraps fileKey rng pre ss rng_i ->
  (forall r', In r' (pre ++ [r]) -> rcp_Type r' = "scrypt" -> n = 1%nat) ->
  rcp_Wrap r fileKey rng_i = (Error e, rng') ->
  forall i0 stanzas,
    wrapLoop n fileKey i0 (pre ++ r :: post) stanzas rng
    = ((map (fun i => EvWrap i None) (seq i0 (List.length pre))
        ++ [EvWrap (i0 + List.length pre) (Some e)])%list,
       Error (Err ("failed to wrap key for recipient #"
                   ++ Itoa (Z.of_nat (i0 + List.length pre)) ++ ": "
                   ++ Error_ e)),
       rng').
Proof.
  intros Hw. revert r post e rng'.
  induction Hw as [rng | rng rng1 rng2 r0 s rs ss Hwrap Hw IH];
    intros r post e rng' Hs Hfail i0 stanzas.
  - cbn [app wrapLoop List.length seq map].
    assert (Hgate : (rcp_Type r =? "scrypt")%string && negb (n =? 1)%nat
                    = false).
    { destruct (String.eqb_spec (rcp_Type r) "scrypt") as [Hty | Hty];
        [| reflexivity].
      rewrite (Hs r (in_eq _ _) Hty). reflexivity. }
    rewrite Hgate, Hfail, Nat.add_0_r. reflexivity.
  - cbn [app wrapLoop List.length seq map].
    assert (Hgate : (rcp_Type r0 =? "scrypt")%string && negb (n =? 1)%nat
                    = false).
    { destruct (String.eqb_spec (rcp_Type r0) "scrypt") as [Hty | Hty];
        [| reflexivity].
      rewrite (Hs r0 (in_eq _ _) Hty). reflexivity. }
    rewrite Hgate, Hwrap.
    rewrite (IH r post e rng') by
      (try exact Hfail; intros r' Hin; apply Hs, in_cons, Hin).
    replace (S i0 + List.length rs)%nat with (i0 + S (List.length rs))%nat
      by lia.
    reflexivity.
Qed.

Lemma not_write_event_wrap (tr : list Event) :
  Forall (fun ev => exists i err, ev = EvWrap i err) tr ->
  Forall (fun ev => is_write_event ev = false) tr.
Proof.
  intros H. eapply Forall_impl; [| exact H].
  intros ev (i & err & ->). reflexivity.
Qed.

(** C7. [Encrypt] of no recipients fails with "no recipients
    specified"; [Encrypt] of a list with a recipient of type "scrypt" and
    any other recipient fails and leaves the destination as it was, with
    no write among its events; and whenever a recipient's [Wrap] fails,
    [Encrypt] fails with the error that names the position of that
    recipient in the list, again without touching the destination.  The
    last part is stated twice: on the log of [Encrypt], and on the
    recipients themselves: once the file key is drawn, if the recipients
    in front of [r] wrap it one after the other, none of them nor [r] is
    a scrypt recipient among others, and [Wrap] of [r] then returns the
    error [e], [Encrypt] returns "failed to wrap key for recipient #",
    the number of recipients in front of [r], ": " and the message of
    [e]. *)
Theorem Encrypt_failures :
  (forall (dst : Writer) (rng : RNG),
      Encrypt dst [] rng
      = ([], Error (Err "no recipients specified"), dst, rng))
  /\ (forall (dst : Writer) (recipients : list Recipient) (rng : RNG),
         (exists r, In r recipients /\ rcp_Type r = "scrypt") ->
         List.length recipients <> 1%nat ->
         exists tr e rng',
           Encrypt dst recipients rng = (tr, Error e, dst, rng')
           /\ Forall (fun ev => is_write_event ev = false) tr)
  /\ (forall (dst : Writer) (recipients : list Recipient) (rng : RNG)
             (i : nat) (e : error),
         In (EvWrap i (Some e)) (fst (fst (fst (Encrypt dst recipients rng))))
         ->
         (exists tr rng',
             Encrypt dst recipients rng
             = (tr, Error (wrap_failure i e), dst, rng'))
         /\ exists r fileKey rng_i,
              nth_error recipients i = Some r
              /\ fst (rcp_Wrap r fileKey rng_i) = Error e)
  /\ (forall (dst : Writer) (pre : list Recipient) (r : Recipient)
             (post : list Recipient) (rng rng1 rng_i rng' : RNG)
             (fileKey : bytes) (stanzas : list Stanza) (e : error),
         rand_Read 16 rng = (ok fileKey, rng1) ->
         wraps fileKey rng1 pre stanzas rng_i ->
         (forall r', In r' (pre ++ [r]) -> rcp_Type r' = "scrypt" ->
                     List.length (pre ++ r :: post) = 1%nat) ->
         rcp_Wrap r fileKey rng_i = (Error e, rng') ->
         Encrypt dst (pre ++ r :: post) rng
         = ((EvRandRead 16
             :: map (fun i => EvWrap i None) (seq 0 (List.length pre))
             ++ [EvWrap (List.length pre) (Some e)])%list,
            Error (Err ("failed to wrap key for recipient #"
                        ++ Itoa (Z.of_nat (List.length pre)) ++ ": "
                        ++ Error_ e)),
            dst, rng')).
Proof.
  split; [reflexivity |]. split; [| split].
  - intros dst recipients rng Hex Hlen. unfold Encrypt.
    destruct (List.length recipients =? 0)%nat.
    { do 3 eexists. split; [reflexivity | constructor]. }
    destruct (rand_Read 16 rng) as [[fileKey | msg] rng1].
    + pose proof (wrapLoop_events (List.length recipients) fileKey
                    recipients 0 [] rng1) as Hev.
      destruct (wrapLoop_scrypt_mixed (List.length recipients) fileKey
                  recipients Hex Hlen 0%nat [] rng1)
        as (tr & e & rng2 & Hloop).
      rewrite Hloop in *. cbn [fst] in Hev.
      do 3 eexists. split; [reflexivity |].
      constructor; [reflexivity | apply not_write_event_wrap, Hev].
    + do 3 eexists. split; [reflexivity | repeat constructor].
  - intros dst recipients rng i e. unfold Encrypt.
    destruct (List.length recipients =? 0)%nat; [intros [] |].
    destruct (rand_Read 16 rng) as [[fileKey | msg] rng1];
      [| intros [H | []]; discriminate H].
    pose proof (wrapLoop_wrap_failure (List.length recipients) fileKey
                  recipients i e 0 [] rng1) as Hfail.
    pose proof (wrapLoop_events (List.length recipients) fileKey
                  recipients 0 [] rng1) as Hev.
    destruct (wrapLoop (List.length recipients) fileKey 0 recipients []
                       rng1) as [[tr res] rng2].
    cbn [fst snd] in Hfail, Hev.
    assert (Hin : In (EvWrap i (Some e)) tr ->
                  res = Error (wrap_failure i e)
                  /\ exists r fileKey0 rng_i,
                       nth_error recipients i = Some r
                       /\ fst (rcp_Wrap r fileKey0 rng_i) = Error e).
    { intros Hin. destruct (Hfail Hin) as (Hres & _ & r & rng_i & Hnth & Hw).
      rewrite Nat.sub_0_r in Hnth. split; [exact Hres |]. eauto. }
    destruct res as [stanzas | e'].
    + (* the loop succeeded: no failed [Wrap] among the events *)
      pose proof (writeHeader_events dst fileKey stanzas rng2) as Htl.
      destruct (writeHeader dst fileKey stanzas rng2)
        as [[[tr' res'] dst'] rng3].
      cbn [fst] in *. intros [H | Hall]; [discriminate H |]. exfalso.
      apply in_app_or in Hall. destruct Hall as [Hin' | Hin'].
      * destruct (Hin Hin') as [H _]. discriminate H.
      * rewrite Forall_forall in Htl. apply (Htl _ Hin' i (Some e)).
        reflexivity.
    + cbn [fst]. intros [H | Hin']; [discriminate H |].
      destruct (Hin Hin') as [Hres Hr]. injection Hres as ->.
      split; [eauto | exact Hr].
  - intros dst pre r post rng rng1 rng_i rng' fileKey stanzas e
           Hkey Hw Hs Hfail.
    unfold Encrypt.
    rewrite length_eqb_0 by (destruct pre; discriminate).
    rewrite Hkey.
    rewrite (wrapLoop_fails_at _ fileKey r post e rng' pre stanzas rng1
               rng_i Hw Hs Hfail 0 []).
    reflexivity.
Qed.

End EncryptProperties.

(** ** The scrypt scheme *)

Section ScryptProperties.
Context {E : Env}.

Lemma shl_int_pow2 (logN : Z) : 0 <= logN <= 62 -> shl_int 1 logN = 2 ^ logN.
Proof.
  intros H. unfold shl_int, wrap_int. rewrite Z.shiftl_1_l.
  assert (Hpos : 0 < 2 ^ logN) by (apply Z.pow_pos_nonneg; lia).
  assert (Hle : 2 ^ logN <= 2 ^ 62) by (apply Z.pow_le_mono_r; lia).
  rewrite Z.mod_small; lia.
Qed.

Lemma SetMaxWorkFactor_wf (i i' : ScryptIdentity) (logN : Z) :
  SetMaxWorkFactor i logN = Returns i' -> ScryptIdentity_wf i'.
Proof.
  unfold SetMaxWorkFactor, ScryptIdentity_wf.
  destruct (Z.gtb_spec logN 30) as [Hhi | Hhi];
    destruct (Z.ltb_spec logN 1) as [Hlo | Hlo]; cbn; try discriminate.
  intros Heq. injection Heq as <-. cbn. lia.
Qed.

Lemma NewScryptIdentity_wf (password : string) (i : ScryptIdentity) :
  NewScryptIdentity password = Ok i -> ScryptIdentity_wf i.
Proof.
  unfold NewScryptIdentity, ScryptIdentity_wf.
  destruct (String.length password =? 0)%nat; [discriminate |].
  intros Heq. injection Heq as <-. cbn. lia.
Qed.

(** C3. [ScryptIdentity.Unwrap]: a stanza of another type gives
    incorrect-identity.  A stanza of type "scrypt" gives a fatal error,
    with no call of the KDF, unless it has exactly two arguments, the
    first decodes to 16 bytes and the second parses as an integer [logN]
    with [0 < logN <= maxWorkFactor]; a [logN] above the maximum gives
    "scrypt work factor too large", a [logN <= 0] gives "invalid scrypt
    work factor", both with no call of the KDF.  For a well-formed stanza
    the KDF is called once, with [N = 1<<logN]; if the AEAD check of the
    body then fails the result is incorrect-identity, and if it passes
    the result is the decrypted file key. *)
Theorem ScryptIdentity_Unwrap_checks (i : ScryptIdentity) (block : Stanza) :
  (Type_ block <> "scrypt" ->
   ScryptIdentity_Unwrap i block = ([], (None, Some ErrIncorrectIdentity)))
  /\ (Type_ block = "scrypt" ->
      (~ (List.length (Args block) = 2%nat
          /\ exists salt logN,
               DecodeString (nth 0 (Args block) "") = ok salt
               /\ List.length salt = 16%nat
               /\ Atoi (nth 1 (Args block) "") = ok logN
               /\ 0 < logN <= maxWorkFactor i) ->
       exists msg,
         ScryptIdentity_Unwrap i block = ([], (None, Some (Err msg))))
      /\ (forall salt logN,
             List.length (Args block) = 2%nat ->
             DecodeString (nth 0 (Args block) "") = ok salt ->
             List.length salt = 16%nat ->
             Atoi (nth 1 (Args block) "") = ok logN ->
             (maxWorkFactor i < logN ->
              ScryptIdentity_Unwrap i block
              = ([], (None, Some (Err ("scrypt work factor too large: "
                                       ++ Itoa logN)))))
             /\ (logN <= 0 -> ScryptIdentity_wf i ->
                 ScryptIdentity_Unwrap i block
                 = ([], (None, Some (Err ("invalid scrypt work factor: "
                                          ++ Itoa logN)))))
             /\ (0 < logN <= maxWorkFactor i ->
                 forall k,
                   scrypt_Key (si_password i)
                     (list_byte_of_string scryptLabel ++ salt)%list
                     (shl_int 1 logN) 8 1 32 = ok k ->
                   (forall msg,
                       aeadDecrypt k (Body block) = failed msg ->
                       ScryptIdentity_Unwrap i block
                       = ([ScryptKey (si_password i)
                             (list_byte_of_string scryptLabel ++ salt)%list
                             (shl_int 1 logN) 8 1 32],
                          (None, Some ErrIncorrectIdentity)))
                   /\ (forall fileKey,
                          aeadDecrypt k (Body block) = ok fileKey ->
                          ScryptIdentity_Unwrap i block
                          = ([ScryptKey (si_password i)
                                (list_byte_of_string scryptLabel ++ salt)%list
                                (shl_int 1 logN) 8 1 32],
                             (fileKey, None)))))).
Proof.
  unfold ScryptIdentity_Unwrap. split.
  - intros Hty. apply String.eqb_neq in Hty. rewrite Hty. reflexivity.
  - intros Hty. rewrite Hty. cbn [String.eqb Ascii.eqb Bool.eqb negb].
    replace ("scrypt" =? "scrypt")%string with true by reflexivity.
    cbn [negb]. split.
    + intros Hbad.
      destruct (Nat.eqb_spec (List.length (Args block)) 2) as [Hlen | Hlen];
        cbn [negb]; [| eauto].
      destruct (DecodeString (nth 0 (Args block) "")) as [salt | msg];
        [| eauto].
      destruct (Nat.eqb_spec (List.length salt) 16) as [Hsalt | Hsalt];
        cbn [negb]; [| eauto].
      destruct (Atoi (nth 1 (Args block) "")) as [logN | msg]; [| eauto].
      destruct (Z.gtb_spec logN (maxWorkFactor i)); [eauto |].
      destruct (Z.leb_spec logN 0); [eauto |].
      exfalso. apply Hbad. split; [exact Hlen |].
      exists salt, logN. repeat split; auto; lia.
    + intros salt logN Hlen Hdec Hsalt Hatoi.
      rewrite Hlen, Hdec, Hsalt, Hatoi. cbn [Nat.eqb negb].
      split; [| split].
      * intros Hgt. destruct (Z.gtb_spec logN (maxWorkFactor i));
          [reflexivity | lia].
      * intros Hle Hwf. unfold ScryptIdentity_wf in Hwf.
        destruct (Z.gtb_spec logN (maxWorkFactor i)); [lia |].
        destruct (Z.leb_spec logN 0); [reflexivity | lia].
      * intros Hok k Hk.
        destruct (Z.gtb_spec logN (maxWorkFactor i)); [lia |].
        destruct (Z.leb_spec logN 0); [lia |].
        change (Z.of_nat KeySize) with 32. rewrite Hk.
        split; [intros msg -> | intros fileKey ->]; reflexivity.
Qed.

(** C10. [SetWorkFactor] and [SetMaxWorkFactor] panic for an argument
    below 1 or above 30.  For an argument [logN] from 1 to 30 they return
    with the field set to [logN] and the passphrase kept; [Wrap] then
    calls the KDF with [N = 2^logN] and writes [logN] as the second
    argument of the stanza, and [Unwrap] then takes [logN] as the bound:
    it rejects a larger work factor without calling the KDF and calls the
    KDF for a work factor from 1 to [logN]. *)
Theorem SetWorkFactor_range :
  (forall (r : ScryptRecipient) (logN : Z),
      logN < 1 \/ 30 < logN ->
      SetWorkFactor r logN
      = Panic "age: SetWorkFactor called with illegal value")
  /\ (forall (i : ScryptIdentity) (logN : Z),
         logN < 1 \/ 30 < logN ->
         SetMaxWorkFactor i logN
         = Panic "age: SetMaxWorkFactor called with illegal value")
  /\ (forall (r : ScryptRecipient) (logN : Z),
         1 <= logN <= 30 ->
         exists r',
           SetWorkFactor r logN = Returns r'
           /\ workFactor r' = logN
           /\ sr_password r' = sr_password r
           /\ forall fileKey rng salt rng',
                rand_Read 16 rng = (ok salt, rng') ->
                fst (fst (ScryptRecipient_Wrap r' fileKey rng))
                = [ScryptKey (sr_password r)
                     (list_byte_of_string scryptLabel ++ salt)%list
                     (2 ^ logN) 8 1 32]
                /\ forall stanza,
                     snd (fst (ScryptRecipient_Wrap r' fileKey rng))
                     = Ok stanza ->
                     Type_ stanza = "scrypt"
                     /\ Args stanza = [EncodeToString salt; Itoa logN])
  /\ (forall (i : ScryptIdentity) (logN : Z),
         1 <= logN <= 30 ->
         exists i',
           SetMaxWorkFactor i logN = Returns i'
           /\ maxWorkFactor i' = logN
           /\ si_password i' = si_password i
           /\ forall block salt logN',
                Type_ block = "scrypt" ->
                List.length (Args block) = 2%nat ->
                DecodeString (nth 0 (Args block) "") = ok salt ->
                List.length salt = 16%nat ->
                Atoi (nth 1 (Args block) "") = ok logN' ->
                (logN < logN' ->
                 ScryptIdentity_Unwrap i' block
                 = ([], (None, Some (Err ("scrypt work factor too large: "
                                          ++ Itoa logN')))))
                /\ (1 <= logN' <= logN ->
                    fst (ScryptIdentity_Unwrap i' block)
                    = [ScryptKey (si_password i)
                         (list_byte_of_string scryptLabel ++ salt)%list
                         (2 ^ logN') 8 1 32])).
Proof.
  split; [| split; [| split]].
  - intros r logN H. unfold SetWorkFactor.
    destruct (Z.gtb_spec logN 30); destruct (Z.ltb_spec logN 1);
      cbn; try reflexivity; lia.
  - intros i logN H. unfold SetMaxWorkFactor.
    destruct (Z.gtb_spec logN 30); destruct (Z.ltb_spec logN 1);
      cbn; try reflexivity; lia.
  - intros r logN H. eexists. split.
    + unfold SetWorkFactor.
      destruct (Z.gtb_spec logN 30); destruct (Z.ltb_spec logN 1);
        cbn; try lia. reflexivity.
    + cbn [workFactor sr_password]. split; [reflexivity |].
      split; [reflexivity |].
      intros fileKey rng salt rng' Hrand.
      unfold ScryptRecipient_Wrap. rewrite Hrand.
      cbn [workFactor sr_password]. rewrite shl_int_pow2 by lia.
      change (Z.of_nat KeySize) with 32.
      destruct (scrypt_Key _ _ _ _ _ _) as [k | msg];
        [| split; [reflexivity | discriminate]].
      destruct (aeadEncrypt k fileKey);
        [| split; [reflexivity | discriminate]].
      split; [reflexivity |]. cbn. intros stanza Heq.
      injection Heq as <-. split; reflexivity.
  - intros i logN H. eexists. split.
    + unfold SetMaxWorkFactor.
      destruct (Z.gtb_spec logN 30); destruct (Z.ltb_spec logN 1);
        cbn; try lia. reflexivity.
    + cbn [maxWorkFactor si_password]. split; [reflexivity |].
      split; [reflexivity |].
      intros block salt logN' Hty Hlen Hdec Hsalt Hatoi.
      unfold ScryptIdentity_Unwrap.
      rewrite Hty, Hlen, Hdec, Hsalt, Hatoi.
      replace ("scrypt" =? "scrypt")%string with true by reflexivity.
      cbn [Nat.eqb negb maxWorkFactor si_password]. split.
      * intros Hgt. destruct (Z.gtb_spec logN' logN); [reflexivity | lia].
      * intros Hin. destruct (Z.gtb_spec logN' logN); [lia |].
        destruct (Z.leb_spec logN' 0); [lia |].
        rewrite shl_int_pow2 by lia. change (Z.of_nat KeySize) with 32.
        destruct (scrypt_Key _ _ _ _ _ _) as [k | msg]; [| reflexivity].
        destruct (aeadDecrypt k (Body block)); reflexivity.
Qed.

End ScryptProperties.

(** ** The X25519 scheme *)

Section X25519Properties.
Context {E : Env}.

(** C4. [X25519Identity.Unwrap] returns incorrect-identity exactly when
    the stanza is not of type "X25519" or the unwrap comes to the AEAD tag
    check of the body and the check fails; for a stanza of type "X25519"
    that does not have exactly one argument, or whose argument does not
    decode to 32 bytes, the error is a fatal one. *)
Theorem X25519Identity_Unwrap_errors (i : X25519Identity) (block : Stanza) :
  (X25519Identity_Unwrap i block = (None, Some ErrIncorrectIdentity)
   <-> Type_ block <> "X25519" \/ X25519_tag_check_fails i block)
  /\ (snd (X25519Identity_Unwrap i block) = Some ErrIncorrectIdentity
      -> X25519Identity_Unwrap i block = (None, Some ErrIncorrectIdentity))
  /\ (Type_ block = "X25519" ->
      List.length (Args block) <> 1%nat
      \/ (forall publicKey,
             DecodeString (nth 0 (Args block) "") = ok publicKey ->
             List.length publicKey <> PointSize) ->
      exists msg, X25519Identity_Unwrap i block = (None, Some (Err msg))).
Proof.
  unfold X25519Identity_Unwrap, X25519_tag_check_fails.
  destruct (String.eqb_spec (Type_ block) "X25519") as [Hty | Hty];
    cbn [negb].
  2:{ split; [| split]; [tauto | reflexivity | contradiction]. }
  destruct (Nat.eqb_spec (List.length (Args block)) 1) as [Hlen | Hlen];
    cbn [negb].
  2:{ split; [| split].
      - split; [discriminate |].
        intros [H | (? & ? & ? & ? & H & _)]; contradiction.
      - discriminate.
      - eauto. }
  destruct (DecodeString (nth 0 (Args block) "")) as [publicKey | msg].
  2:{ split; [| split].
      - split; [discriminate |].
        intros [H | (? & ? & ? & ? & _ & H & _)];
          [contradiction | discriminate H].
      - discriminate.
      - eauto. }
  destruct (Nat.eqb_spec (List.length publicKey) PointSize) as [Hpk | Hpk];
    cbn [negb].
  2:{ split; [| split].
      - split; [discriminate |].
        intros [H | (? & ? & ? & ? & _ & H & H' & _)]; [contradiction |].
        injection H as <-. contradiction.
      - discriminate.
      - eauto. }
  destruct (X25519 (secretKey i) publicKey) as [sharedSecret | msg] eqn:HX.
  2:{ split; [| split].
      - split; [discriminate |].
        intros [H | (? & ? & ? & ? & _ & H & _ & H' & _)];
          [contradiction |].
        injection H as <-. rewrite HX in H'. discriminate H'.
      - discriminate.
      - intros _ [H | H]; [contradiction | destruct (H _ eq_refl Hpk)]. }
  destruct (hkdf_sha256 sharedSecret _ _ KeySize) as [wrappingKey | msg]
    eqn:Hkdf.
  2:{ split; [| split].
      - split; [discriminate |].
        intros [H | (? & ? & ? & ? & _ & H & _ & H' & H'' & _)];
          [contradiction |].
        injection H as <-. rewrite HX in H'. injection H' as <-.
        rewrite Hkdf in H''. discriminate H''.
      - discriminate.
      - intros _ [H | H]; [contradiction | destruct (H _ eq_refl Hpk)]. }
  destruct (aeadDecrypt wrappingKey (Body block)) as [fileKey | msg]
    eqn:Haead.
  - split; [| split].
    + split; [discriminate |].
      intros [H | (? & ? & ? & ? & _ & H & _ & H' & H'' & H3)];
        [contradiction |].
      injection H as <-. rewrite HX in H'. injection H' as <-.
      rewrite Hkdf in H''. injection H'' as <-. rewrite Haead in H3.
      discriminate H3.
    + discriminate.
    + intros _ [H | H]; [contradiction | destruct (H _ eq_refl Hpk)].
  - split; [| split].
    + split; [| reflexivity]. intros _. right.
      exists publicKey, sharedSecret, wrappingKey, msg. auto 10.
    + reflexivity.
    + intros _ [H | H]; [contradiction | destruct (H _ eq_refl Hpk)].
Qed.

Lemma NewX25519Identity_inv (secret : bytes) (i : X25519Identity) :
  NewX25519Identity secret = Ok i ->
  List.length secret = ScalarSize
  /\ secretKey i = secret
  /\ ourPublicKey i = match X25519 secret Basepoint with
                      | ok p => p
                      | failed _ => []
                      end.
Proof.
  unfold NewX25519Identity.
  destruct (Nat.eqb_spec (List.length secret) ScalarSize) as [Hlen | Hlen];
    cbn [negb]; [| discriminate].
  intros Heq. injection Heq as <-. auto.
Qed.

(** C5. A stanza that [X25519Recipient.Wrap] returns has type "X25519",
    the encoded ephemeral public key as its only argument, and as body
    the AEAD encryption of the file key under the key that HKDF-SHA256
    derives from the shared secret with the salt "ephemeral public key,
    then recipient public key", the X25519 label and length 32.  If the
    primitives keep their laws and the recipient is that of an identity
    made by [NewX25519Identity], then [Unwrap] of that identity decodes
    the same ephemeral key, derives the same shared secret and, with the
    salt "stanza public key, then own public key", the same wrapping
    key, and returns a 16-byte file key unchanged. *)
Theorem X25519_wrap_unwrap (r : X25519Recipient) (fileKey : bytes)
    (rng rng' : RNG) (stanza : Stanza) :
  X25519Recipient_Wrap r fileKey rng = (Ok stanza, rng') ->
  exists ephemeral ourPub sharedSecret wrappingKey,
    rand_Read ScalarSize rng = (ok ephemeral, rng')
    /\ X25519 ephemeral Basepoint = ok ourPub
    /\ X25519 ephemeral (theirPublicKey r) = ok sharedSecret
    /\ hkdf_sha256 sharedSecret (ourPub ++ theirPublicKey r)%list
         (list_byte_of_string "age-encryption.org/v1/X25519") 32
       = ok wrappingKey
    /\ Type_ stanza = "X25519"
    /\ Args stanza = [EncodeToString ourPub]
    /\ aeadEncrypt wrappingKey fileKey = ok (Body stanza)
    /\ (PrimitiveLaws ->
        forall secret i,
          NewX25519Identity secret = Ok i ->
          r = X25519Identity_Recipient i ->
          List.length fileKey = 16%nat ->
          DecodeString (nth 0 (Args stanza) "") = ok ourPub
          /\ X25519 (secretKey i) ourPub = ok sharedSecret
          /\ hkdf_sha256 sharedSecret (ourPub ++ ourPublicKey i)%list
               (list_byte_of_string "age-encryption.org/v1/X25519") 32
             = ok wrappingKey
          /\ X25519Identity_Unwrap i stanza = (Some fileKey, None)).
Proof.
  unfold X25519Recipient_Wrap.
  destruct (rand_Read ScalarSize rng) as [[ephemeral | msg] rng1];
    [| discriminate].
  destruct (X25519 ephemeral Basepoint) as [ourPub | msg] eqn:Hpub;
    [| discriminate].
  destruct (X25519 ephemeral (theirPublicKey r)) as [sharedSecret | msg]
    eqn:Hshared; [| discriminate].
  destruct (hkdf_sha256 sharedSecret _ _ KeySize) as [wrappingKey | msg]
    eqn:Hkdf; [| discriminate].
  destruct (aeadEncrypt wrappingKey fileKey) as [wrappedKey | msg]
    eqn:Haead; [| discriminate].
  cbn [Type_ Args]. intros Heq. injection Heq as <- <-.
  exists ephemeral, ourPub, sharedSecret, wrappingKey.
  cbn [Type_ Args Body nth].
  do 7 (split; [first [reflexivity | assumption] |]).
  intros laws secret i Hnew -> Hlen.
  cbn [X25519Identity_Recipient theirPublicKey] in *.
  destruct (NewX25519Identity_inv secret i Hnew) as (Hsec & Hsk & Hpk).
  destruct (X25519_base laws secret Hsec) as [A HA].
  rewrite HA in Hpk.
  assert (Hagree : X25519 (secretKey i) ourPub = ok sharedSecret).
  { rewrite Hsk, <- (X25519_agree laws ephemeral secret ourPub A Hpub HA).
    rewrite <- Hpk. exact Hshared. }
  pose proof (codec_roundtrip laws ourPub) as Hdec.
  do 3 (split; [assumption |]).
  unfold X25519Identity_Unwrap. cbn [Type_ Args Body nth List.length].
  replace ("X25519" =? "X25519")%string with true by reflexivity.
  cbn [Nat.eqb negb]. rewrite Hdec.
  rewrite (X25519_size laws _ _ _ Hpub), Nat.eqb_refl. cbn [negb].
  rewrite Hagree, Hkdf.
  rewrite (aead_roundtrip laws wrappingKey fileKey wrappedKey);
    [reflexivity | | exact Haead].
  intros ->. discriminate Hlen.
Qed.

End X25519Properties.

(** ** The executable environment keeps the laws *)

Section TestEnvLaws.
Import TestEnv.

Lemma to_N_inj (x y : byte) : Byte.to_N x = Byte.to_N y -> x = y.
Proof.
  intros H. pose proof (Byte.of_to_N x) as Hx.
  rewrite H, Byte.of_to_N in Hx. congruence.
Qed.

Lemma bmax_left_comm (x y z : byte) :
  bmax x (bmax y z) = bmax y (bmax x z).
Proof.
  unfold bmax.
  destruct (N.leb_spec (Byte.to_N y) (Byte.to_N z));
    destruct (N.leb_spec (Byte.to_N x) (Byte.to_N z));
    repeat match goal with
           | |- context [(Byte.to_N ?a <=? Byte.to_N ?b)%N] =>
             destruct (N.leb_spec (Byte.to_N a) (Byte.to_N b))
           end; try reflexivity; try lia; apply to_N_inj; lia.
Qed.

Lemma bmaxs_nil_r (a : bytes) : bmaxs a [] = [].
Proof. destruct a; reflexivity. Qed.

Lemma bmaxs_left_comm (a : bytes) :
  forall b c, bmaxs a (bmaxs b c) = bmaxs b (bmaxs a c).
Proof.
  induction a as [| x a IH]; intros [| y b] [| z c]; cbn;
    rewrite ?bmaxs_nil_r; try reflexivity.
  rewrite bmax_left_comm, IH. reflexivity.
Qed.

Lemma bmaxs_length (a : bytes) :
  forall b, List.length (bmaxs a b)
            = Nat.min (List.length a) (List.length b).
Proof.
  induction a as [| x a IH]; intros [| y b]; cbn; auto.
Qed.

Lemma t_X25519_inv (a P Q : bytes) :
  t_X25519 a P = ok Q ->
  List.length a = 32%nat /\ List.length P = 32%nat /\ Q = bmaxs a P.
Proof.
  unfold t_X25519.
  destruct (Nat.eqb_spec (List.length a) 32); cbn [negb]; [| discriminate].
  destruct (Nat.eqb_spec (List.length P) 32); cbn [negb]; [| discriminate].
  destruct (all_zero (bmaxs a P)); [discriminate |].
  intros H. injection H as <-. auto.
Qed.

Lemma t_X25519_base (a : bytes) :
  List.length a = 32%nat -> exists A, t_X25519 a t_Basepoint = ok A.
Proof.
  intros Hlen. unfold t_X25519. rewrite Hlen. cbn [Nat.eqb negb].
  change (List.length t_Basepoint =? 32)%nat with true. cbn [negb].
  destruct a as [| x a]; [discriminate Hlen |].
  assert (Hnz : all_zero (bmaxs (x :: a) t_Basepoint) = false).
  { cbn [t_Basepoint bmaxs all_zero forallb]. apply andb_false_iff. left.
    apply N.eqb_neq. unfold bmax.
    destruct (N.leb_spec (Byte.to_N x) (Byte.to_N x09)) as [Hle | Hgt].
    - discriminate.
    - change (Byte.to_N x09) with 9%N in Hgt. lia. }
  rewrite Hnz. eauto.
Qed.

Lemma t_aead_roundtrip (key plaintext ciphertext : bytes) :
  plaintext <> [] ->
  t_aeadEncrypt key plaintext = ok ciphertext ->
  t_aeadDecrypt key ciphertext = ok (Some plaintext).
Proof.
  intros Hne. unfold t_aeadEncrypt, t_aeadDecrypt.
  destruct (Nat.eqb_spec (List.length key) 32) as [Hkey | Hkey];
    cbn [negb]; [| discriminate].
  assert (Htag : List.length (firstn 16 key) = 16%nat)
    by (rewrite length_firstn; lia).
  set (tag := firstn 16 key) in *. clearbody tag.
  intros H. injection H as <-.
  rewrite length_app, Htag.
  destruct (Nat.ltb_spec (List.length plaintext + 16) 16); [lia |].
  replace (List.length plaintext + 16 - 16)%nat
    with (List.length plaintext + 0)%nat by lia.
  rewrite skipn_app, firstn_app_2, Nat.add_0_r.
  rewrite skipn_all, Nat.sub_diag. cbn [app skipn firstn].
  rewrite app_nil_r.
  destruct (bytes_eq_dec tag tag); [| congruence].
  destruct plaintext; [congruence | reflexivity].
Qed.

Lemma TestEnv_laws : PrimitiveLaws (E := env).
Proof.
  constructor; cbn [X25519 Basepoint EncodeToString DecodeString
                    aeadEncrypt aeadDecrypt env].
  - intros a b A B HA HB.
    apply t_X25519_inv in HA. destruct HA as (Ha & _ & ->).
    apply t_X25519_inv in HB. destruct HB as (Hb & _ & ->).
    unfold t_X25519. rewrite Ha, Hb, !bmaxs_length, Ha, Hb.
    cbn [Nat.eqb negb Nat.min List.length t_Basepoint repeat].
    rewrite (bmaxs_left_comm a b). reflexivity.
  - intros a Ha. apply t_X25519_base, Ha.
  - intros a P Q H. apply t_X25519_inv in H. destruct H as (Ha & HP & ->).
    rewrite bmaxs_length, Ha, HP. reflexivity.
  - intros b. rewrite list_byte_of_string_of_list_byte. reflexivity.
  - apply t_aead_roundtrip.
Qed.

End TestEnvLaws.

(** ** Runs on the test vectors *)

Section Runs.
Import TestEnv Vectors.

(** C1. The specification asks that a header with a scrypt stanza and
    another stanza always makes [Decrypt] fail with "an scrypt recipient
    must be the only one".  In the code the check sits inside the loop, in
    front of each stanza, and the loop is left at the first successful
    [Unwrap]:
    [mixed_header] has an X25519 stanza for [alice] followed by a scrypt
    stanza, and [Decrypt] with [alice] unwraps the first stanza, never
    looks at the second, verifies the header MAC and returns the payload
    reader.  With the two stanzas in the other order the same header is
    rejected. *)
Theorem Decrypt_scrypt_check_skipped :
  scrypt_mixed mixed_header
  /\ Decrypt (source mixed_header) [X25519Identity_iface alice]
     = ([EvParse; EvUnwrap 0 0 (Some fileKey0) None; EvHeaderMAC fileKey0;
         EvReadNonce; EvNewReader],
        Ok {| rd_header := None; rd_rest := [] |})
  /\ Decrypt (source mixed_header_rev) [X25519Identity_iface alice]
     = ([EvParse], Error (Err "an scrypt recipient must be the only one")).
Proof.
  split; [| split].
  - split; [| discriminate].
    exists stanza_scrypt. split; [right; left |]; reflexivity.
  - vm_compute. reflexivity.
  - reflexivity.
Qed.



Lemma ScryptIdentity_Unwrap_checks_witness :
  maxWorkFactor pass_identity9 < 10
  /\ ScryptIdentity_Unwrap pass_identity9 stanza_scrypt
     = ([], (None, Some (Err "scrypt work factor too large: 10"))).
Proof.
  split; [cbn; lia |].
  destruct (ScryptIdentity_Unwrap_checks (E := env) pass_identity9
              stanza_scrypt) as [_ Hscrypt].
  destruct (Hscrypt eq_refl) as [_ Hwell].
  destruct (Hwell (repeat x05 16) 10 eq_refl eq_refl eq_refl eq_refl)
    as [Hlarge _].
  apply Hlarge. cbn. lia.
Defined.

Lemma X25519Identity_Unwrap_errors_witness :
  Type_ stanza_scrypt <> "X25519"
  /\ X25519Identity_Unwrap alice stanza_scrypt
     = (None, Some ErrIncorrectIdentity).
Proof.
  split; [discriminate |].
  destruct (X25519Identity_Unwrap_errors (E := env) alice stanza_scrypt)
    as [[_ Hback] _].
  apply Hback. left. discriminate.
Defined.

Lemma X25519_wrap_unwrap_witness :
  X25519Recipient_Wrap (X25519Identity_Recipient alice) fileKey0
                       (repeat x11 32)
  = (Ok stanza_alice, [])
  /\ X25519Identity_Unwrap alice stanza_alice = (Some fileKey0, None).
Proof.
  split; [reflexivity |].
  destruct (X25519_wrap_unwrap (E := env) (X25519Identity_Recipient alice)
              fileKey0 (repeat x11 32) [] stanza_alice eq_refl)
    as (ephemeral & ourPub & sharedSecret & wrappingKey & _ & _ & _ & _
        & _ & _ & _ & Hunwrap).
  destruct (Hunwrap TestEnv_laws alice_secret alice eq_refl eq_refl eq_refl)
    as (_ & _ & _ & H).
  exact H.
Defined.

Lemma Decrypt_MAC_then_nonce_witness :
  headerMAC fileKey0 forged_header = ok mac0
  /\ mac0 <> MAC forged_header
  /\ Decrypt (source forged_header) [X25519Identity_iface alice]
     = ([EvParse; EvUnwrap 0 0 (Some fileKey0) None; EvHeaderMAC fileKey0],
        Error (Err "bad header MAC")).
Proof.
  split; [reflexivity |]. split; [discriminate |].
  destruct (Decrypt_MAC_then_nonce (E := env)) as [Hkey _].
  destruct (Hkey (source forged_header) [X25519Identity_iface alice]
              forged_header {| rd_header := None; rd_rest := nonce0 |}
              [EvUnwrap 0 0 (Some fileKey0) None] (Break (Some fileKey0))
              fileKey0)
    as [_ Hbad];
    [discriminate | reflexivity | cbn; lia | reflexivity
     | right; reflexivity |].
  apply (Hbad mac0); [reflexivity | discriminate].
Defined.

Lemma Encrypt_failures_witness :
  (exists tr e rng',
      Encrypt []
        [X25519Recipient_iface (X25519Identity_Recipient alice);
         ScryptRecipient_iface pass_recipient]
        (fileKey0 ++ repeat x11 32)%list
      = (tr, Error e, [], rng')
      /\ Forall (fun ev => is_write_event ev = false) tr)
  /\ rcp_Wrap Vectors2.bad_recipient fileKey0 (repeat x11 32 ++ nonce0)%list
     = (Error (Err "bad point length"), nonce0)
  /\ Encrypt [] [Vectors2.alice_recipient; Vectors2.bad_recipient]
             (Vectors2.tape 2)
     = ([EvRandRead 16; EvWrap 0 None;
         EvWrap 1 (Some (Err "bad point length"))],
        Error (Err "failed to wrap key for recipient #1: bad point length"),
        [], nonce0).
Proof.
  destruct (Encrypt_failures (E := env)) as (_ & Hmixed & _ & Hfail).
  split; [| split; [reflexivity |]].
  - apply Hmixed; [| discriminate].
    exists (ScryptRecipient_iface pass_recipient).
    split; [right; left |]; reflexivity.
  - apply (Hfail [] [Vectors2.alice_recipient] Vectors2.bad_recipient []
             (Vectors2.tape 2) (repeat x11 64 ++ nonce0)%list
             (repeat x11 32 ++ nonce0)%list nonce0 fileKey0
             [stanza_alice] (Err "bad point length")).
    + reflexivity.
    + eapply wraps_cons; [reflexivity | constructor].
    + intros r' [<- | [<- | []]] H; discriminate H.
    + reflexivity.
Defined.

Lemma Decrypt_too_many_stanzas_witness :
  (20 < List.length (Recipients long_header))%nat
  /\ Decrypt (source long_header) [X25519Identity_iface alice]
     = ([EvParse], Error (Err "too many recipients")).
Proof.
  split; [cbn; lia |].
  destruct (Decrypt_too_many_stanzas (E := env) (source long_header)
              [X25519Identity_iface alice] long_header
              {| rd_header := None; rd_rest := nonce0 |})
    as (_ & _ & H); [reflexivity | cbn; lia |].
  apply H. discriminate.
Defined.

Lemma Decrypt_no_stanza_witness :
  Recipients empty_header = []
  /\ Decrypt (source empty_header) [X25519Identity_iface alice]
     = ([EvParse], Error (Err "no identity matched a recipient")).
Proof.
  split; [reflexivity |].
  destruct (Decrypt_no_stanza (E := env)) as [Hempty _].
  apply (Hempty (source empty_header) [X25519Identity_iface alice]
           empty_header {| rd_header := None; rd_rest := nonce0 |});
    [discriminate | reflexivity | reflexivity].
Defined.

Lemma SetWorkFactor_range_witness :
  SetWorkFactor pass_recipient 31
  = Panic "age: SetWorkFactor called with illegal value"
  /\ SetMaxWorkFactor pass_identity 0
     = Panic "age: SetMaxWorkFactor called with illegal value"
  /\ (exists r', SetWorkFactor pass_recipient 12 = Returns r'
                 /\ workFactor r' = 12)
  /\ (exists i', SetMaxWorkFactor pass_identity 9 = Returns i'
                 /\ maxWorkFactor i' = 9).
Proof.
  destruct (SetWorkFactor_range (E := env)) as (Hr & Hi & Hr' & Hi').
  split; [apply Hr; lia |]. split; [apply Hi; lia |]. split.
  - destruct (Hr' pass_recipient 12) as (r' & H1 & H2 & _); [lia |].
    exists r'. split; assumption.
  - destruct (Hi' pass_identity 9) as (i' & H1 & H2 & _); [lia |].
    exists i'. split; assumption.
Defined.

End Runs.

(** ** [Encrypt], when it succeeds *)

Section EncryptSuccess.
Context {E : Env}.

Lemma wrapLoop_ok_inv (n : nat) (fileKey : bytes)
    (recipients : list Recipient) :
  forall i0 stanzas rng tr out rng',
    wrapLoop n fileKey i0 recipients stanzas rng = (tr, Ok out, rng') ->
    exists new,
      out = (stanzas ++ new)%list
      /\ wraps fileKey rng recipients new rng'
      /\ (forall r, In r recipients -> rcp_Type r = "scrypt" -> n = 1%nat)
      /\ tr = map (fun i => EvWrap i None)
                  (seq i0 (List.length recipients)).
Proof.
  induction recipients as [| r rest IH]; intros i0 stanzas rng tr out rng'.
  - cbn. intros H. injection H as <- <- <-.
    exists []. rewrite app_nil_r. repeat split; [constructor |].
    intros r [].
  - cbn [wrapLoop].
    destruct ((rcp_Type r =? "scrypt")%string && negb (n =? 1)%nat)
      eqn:Hgate; [discriminate |].
    destruct (rcp_Wrap r fileKey rng) as [[block | e] rng1] eqn:Hwrap;
      [| discriminate].
    destruct (wrapLoop n fileKey (S i0) rest (stanzas ++ [block])%list rng1)
      as [[tr1 res1] rng2] eqn:Hloop.
    intros H. injection H as <- -> <-.
    destruct (IH _ _ _ _ _ _ Hloop) as (new & -> & Hw & Hs & ->).
    exists (block :: new). rewrite <- app_assoc.
    split; [reflexivity |]. split; [econstructor; eassumption |].
    split; [| reflexivity].
    intros r' [<- | Hin] Hr'; [| eauto].
    apply String.eqb_eq in Hr'. rewrite Hr' in Hgate. cbn in Hgate.
    apply negb_false_iff, Nat.eqb_eq in Hgate. exact Hgate.
Qed.

Lemma wrapLoop_ok_intro (n : nat) (fileKey : bytes)
    (recipients : list Recipient) (new : list Stanza) (rng rng' : RNG) :
  wraps fileKey rng recipients new rng' ->
  (forall r, In r recipients -> rcp_Type r = "scrypt" -> n = 1%nat) ->
  forall i0 stanzas,
    wrapLoop n fileKey i0 recipients stanzas rng
    = (map (fun i => EvWrap i None) (seq i0 (List.length recipients)),
       Ok (stanzas ++ new)%list, rng').
Proof.
  induction 1 as [rng | rng rng1 rng2 r s rs ss Hwrap Hw IH];
    intros Hs i0 stanzas.
  - cbn. rewrite app_nil_r. reflexivity.
  - cbn [wrapLoop].
    assert (Hgate : (rcp_Type r =? "scrypt")%string && negb (n =? 1)%nat
                    = false).
    { destruct (String.eqb_spec (rcp_Type r) "scrypt") as [Hty | Hty];
        [| reflexivity].
      rewrite (Hs r (in_eq _ _) Hty). reflexivity. }
    rewrite Hgate, Hwrap, IH by (intros r' Hin; apply Hs, in_cons, Hin).
    rewrite <- app_assoc. reflexivity.
Qed.

Lemma wraps_length (fileKey : bytes) (rng rng' : RNG)
    (rs : list Recipient) (ss : list Stanza) :
  wraps fileKey rng rs ss rng' -> List.length ss = List.length rs.
Proof. induction 1; cbn; congruence. Qed.

Lemma Encrypt_ok_inv (dst : Writer) (recipients : list Recipient)
    (rng : RNG) (tr : list Event) (w : WriteCloser) (dst' : Writer)
    (rng' : RNG) :
  Encrypt dst recipients rng = (tr, Ok w, dst', rng') ->
  recipients <> []
  /\ (forall r, In r recipients -> rcp_Type r = "scrypt" ->
                List.length recipients = 1%nat)
  /\ exists fileKey hdr nonce,
       encrypted dst recipients rng fileKey hdr nonce w dst' rng'
       /\ tr = (EvRandRead 16
                :: map (fun i => EvWrap i None)
                       (seq 0 (List.length recipients))
                ++ [EvHeaderMAC fileKey; EvMarshal; EvRandRead 16;
                    EvWriteNonce; EvNewWriter])%list.
Proof.
  unfold Encrypt.
  destruct (Nat.eqb_spec (List.length recipients) 0) as [Hlen | Hlen];
    [discriminate |].
  destruct (rand_Read 16 rng) as [[fileKey | msg] rng1] eqn:Hkey;
    [| discriminate].
  destruct (wrapLoop (List.length recipients) fileKey 0 recipients [] rng1)
    as [[tr1 [stanzas | e]] rng2] eqn:Hloop; [| discriminate].
  apply wrapLoop_ok_inv in Hloop.
  destruct Hloop as (new & Hnew & Hw & Hs & ->). cbn [app] in Hnew.
  subst stanzas. unfold writeHeader.
  destruct (headerMAC fileKey _) as [mac | msg] eqn:Hmac; [| discriminate].
  destruct (Marshal _ dst) as [[msg |] dst1] eqn:Hmarshal; [discriminate |].
  destruct (rand_Read 16 rng2) as [[nonce | msg] rng3] eqn:Hnonce;
    [| discriminate].
  destruct (io_Write nonce dst1) as [[msg |] dst2] eqn:Hwrite;
    [discriminate |].
  destruct (stream_NewWriter _ dst2) as [w' | msg] eqn:Hnew;
    [| discriminate].
  intros H. injection H as <- <- <- <-.
  split; [intros ->; apply Hlen; reflexivity |]. split; [exact Hs |].
  exists fileKey, {| Recipients := new; MAC := mac |}, nonce.
  split; [| reflexivity].
  exists rng1, rng2, dst1. cbn [Recipients MAC]. auto 10.
Qed.

(** X1. [Encrypt] succeeds exactly when the recipient list is not
    empty, a recipient of type "scrypt" is the only one, and every step
    succeeds in this order: 16 random bytes for the file key; each
    recipient's [Wrap] of that file key, in the order of the list, the
    random source passing from one to the next; the header MAC over the
    stanzas in that order; the header written to the destination; 16
    random bytes for the nonce, written after the header; the stream
    writer keyed by [streamKey fileKey nonce]. *)
Theorem Encrypt_success (dst : Writer) (recipients : list Recipient)
    (rng : RNG) (tr : list Event) (w : WriteCloser) (dst' : Writer)
    (rng' : RNG) :
  Encrypt dst recipients rng = (tr, Ok w, dst', rng') <->
  recipients <> []
  /\ (forall r, In r recipients -> rcp_Type r = "scrypt" ->
                List.length recipients = 1%nat)
  /\ exists fileKey hdr nonce,
       encrypted dst recipients rng fileKey hdr nonce w dst' rng'
       /\ tr = (EvRandRead 16
                :: map (fun i => EvWrap i None)
                       (seq 0 (List.length recipients))
                ++ [EvHeaderMAC fileKey; EvMarshal; EvRandRead 16;
                    EvWriteNonce; EvNewWriter])%list.
Proof.
  split; [apply Encrypt_ok_inv |].
  intros (Hne & Hs & fileKey & hdr & nonce & Henc & ->).
  destruct Henc as (rng1 & rng2 & dst1 & Hkey & Hw & Hmac & Hmarshal
                    & Hnonce & Hwrite & Hnew).
  unfold Encrypt. rewrite (length_eqb_0 _ Hne), Hkey.
  rewrite (wrapLoop_ok_intro _ fileKey recipients (Recipients hdr)
             rng1 rng2 Hw Hs 0 []).
  cbn [app]. unfold writeHeader. rewrite Hmac.
  destruct hdr as [stanzas mac]. cbn [Recipients MAC] in *.
  rewrite Hmarshal, Hnonce, Hwrite, Hnew. reflexivity.
Qed.

(** X14. When [Encrypt] fails, the destination is as it was, unless the
    failure comes after the file key was drawn, every recipient wrapped it
    and the header MAC was computed.  Then the destination is what
    [Marshal] left after failing ("failed to write header"), or holds the
    whole header and the nonce could not be drawn (the error of the random
    source as it is), or is what the failed write of the nonce left
    ("failed to write nonce"), or holds header and nonce and the stream
    writer could not be made. *)
Theorem Encrypt_failure_destination (dst : Writer)
    (recipients : list Recipient) (rng : RNG) (tr : list Event) (e : error)
    (dst' : Writer) (rng' : RNG) :
  Encrypt dst recipients rng = (tr, Error e, dst', rng') ->
  dst' = dst
  \/ exists fileKey rng1 stanzas rng2 mac,
       rand_Read 16 rng = (ok fileKey, rng1)
       /\ wraps fileKey rng1 recipients stanzas rng2
       /\ headerMAC fileKey {| Recipients := stanzas; MAC := [] |} = ok mac
       /\ ((exists msg,
               Marshal {| Recipients := stanzas; MAC := mac |} dst
               = (Some msg, dst')
               /\ e = Err ("failed to write header: " ++ msg))
           \/ exists dst1,
                Marshal {| Recipients := stanzas; MAC := mac |} dst
                = (None, dst1)
                /\ ((exists msg,
                        rand_Read 16 rng2 = (failed msg, rng')
                        /\ dst' = dst1 /\ e = Err msg)
                    \/ exists nonce,
                         rand_Read 16 rng2 = (ok nonce, rng')
                         /\ ((exists msg,
                                 io_Write nonce dst1 = (Some msg, dst')
                                 /\ e = Err ("failed to write nonce: "
                                             ++ msg))
                             \/ exists msg,
                                  io_Write nonce dst1 = (None, dst')
                                  /\ stream_NewWriter
                                       (streamKey fileKey nonce) dst'
                                     = failed msg
                                  /\ e = Err msg))).
Proof.
  unfold Encrypt.
  destruct (List.length recipients =? 0)%nat;
    [intros H; injection H as _ _ <- _; auto |].
  destruct (rand_Read 16 rng) as [[fileKey | msg] rng1] eqn:Hkey;
    [| intros H; injection H as _ _ <- _; auto].
  destruct (wrapLoop (List.length recipients) fileKey 0 recipients [] rng1)
    as [[tr1 [stanzas | e1]] rng2] eqn:Hloop;
    [| intros H; injection H as _ _ <- _; auto].
  apply wrapLoop_ok_inv in Hloop.
  destruct Hloop as (new & Hnew & Hw & _ & _). cbn [app] in Hnew.
  subst stanzas. unfold writeHeader.
  destruct (headerMAC fileKey _) as [mac | msg] eqn:Hmac;
    [| intros H; injection H as _ _ <- _; auto].
  intros H. right. exists fileKey, rng1, new, rng2, mac.
  do 3 (split; [first [reflexivity | assumption] |]).
  revert H.
  destruct (Marshal _ dst) as [[msg |] dst1] eqn:Hmarshal.
  { intros H. injection H as _ <- <- _. left. eauto. }
  right. exists dst1. split; [reflexivity |]. revert H.
  destruct (rand_Read 16 rng2) as [[nonce | msg] rng3] eqn:Hnonce.
  2:{ intros H. injection H as _ <- <- <-. left. eauto. }
  destruct (io_Write nonce dst1) as [[msg |] dst2] eqn:Hwrite.
  { intros H. injection H as _ <- <- <-. right. exists nonce.
    split; [reflexivity |]. left. eauto. }
  destruct (stream_NewWriter _ dst2) as [w | msg] eqn:Hnew;
    [discriminate |].
  intros H. injection H as _ <- <- <-. right. exists nonce.
  split; [reflexivity |]. right. exists msg. rewrite Hwrite. auto.
Qed.

End EncryptSuccess.

(** ** [Decrypt], when it succeeds *)

Section DecryptSuccess.
Context {E : Env}.

Lemma run_plan_app (l1 l2 : list Step) :
  forall fileKey,
    run_plan (l1 ++ l2) fileKey
    = and_then (run_plan l1 fileKey) (run_plan l2).
Proof.
  induction l1 as [| [s | s r i id] l1 IH]; intros fileKey.
  - cbn. destruct (run_plan l2 fileKey); reflexivity.
  - reflexivity.
  - cbn [app run_plan].
    assert (Hunwrap :
      match id_Unwrap id r with
      | (fileKey', Some e) =>
        if is_incorrect e then
          tell (EvUnwrap s i fileKey' (Some e))
               (run_plan (l1 ++ l2) fileKey')
        else ([EvUnwrap s i fileKey' (Some e)], Return e)
      | (fileKey', None) => ([EvUnwrap s i fileKey' None], Break fileKey')
      end
      = and_then
          match id_Unwrap id r with
          | (fileKey', Some e) =>
            if is_incorrect e then
              tell (EvUnwrap s i fileKey' (Some e)) (run_plan l1 fileKey')
            else ([EvUnwrap s i fileKey' (Some e)], Return e)
          | (fileKey', None) =>
            ([EvUnwrap s i fileKey' None], Break fileKey')
          end (run_plan l2)).
    { destruct (id_Unwrap id r) as [fk [e |]]; [| reflexivity].
      destruct (is_incorrect e); [| reflexivity].
      rewrite and_then_tell, IH. reflexivity. }
    destruct (id_Match id) as [matcher |]; [| exact Hunwrap].
    destruct (matcher r) as [e |].
    + destruct (is_incorrect e); [| reflexivity].
      rewrite and_then_tell, IH. reflexivity.
    + rewrite and_then_tell, Hunwrap. reflexivity.
Qed.

Lemma StronglySorted_before {A : Type} (R : A -> A -> Prop) (x : A)
    (l1 l2 : list A) :
  StronglySorted R (l1 ++ x :: l2) -> Forall (fun y => R y x) l1.
Proof.
  induction l1 as [| a l1 IH]; intros H; [constructor |].
  cbn in H. apply StronglySorted_inv in H. destruct H as [Hs Ha].
  constructor; [apply (Forall_elt _ _ _ Ha) | apply IH, Hs].
Qed.

(** Where the file key of a finished scan comes from. *)
Lemma run_plan_key_source (plan : list Step) :
  forall fileKey0 fileKey,
    snd (run_plan plan fileKey0) = Continue (Some fileKey)
    \/ snd (run_plan plan fileKey0) = Break (Some fileKey) ->
    fileKey0 = Some fileKey
    \/ exists s r i id err,
         In (Try s r i id) plan
         /\ id_Unwrap id r = (Some fileKey, err)
         /\ (err = None \/ err = Some ErrIncorrectIdentity).
Proof.
  induction plan as [| [s | s r i id] rest IH]; intros fileKey0 fileKey.
  - cbn. intros [H | H]; [injection H as ->; auto | discriminate H].
  - cbn. intros [H | H]; discriminate H.
  - assert (Hrest : forall fk,
      snd (run_plan rest fk) = Continue (Some fileKey)
      \/ snd (run_plan rest fk) = Break (Some fileKey) ->
      fk = Some fileKey
      \/ exists s0 r0 i0 id0 err,
           In (Try s0 r0 i0 id0) (Try s r i id :: rest)
           /\ id_Unwrap id0 r0 = (Some fileKey, err)
           /\ (err = None \/ err = Some ErrIncorrectIdentity)).
    { intros fk H. destruct (IH fk fileKey H)
        as [-> | (s0 & r0 & i0 & id0 & err & Hin & Hu & Herr)]; [auto |].
      right. exists s0, r0, i0, id0, err. auto using in_cons. }
    assert (Hunwrap :
      snd match id_Unwrap id r with
          | (fileKey', Some e) =>
            if is_incorrect e then
              tell (EvUnwrap s i fileKey' (Some e)) (run_plan rest fileKey')
            else ([EvUnwrap s i fileKey' (Some e)], Return e)
          | (fileKey', None) =>
            ([EvUnwrap s i fileKey' None], Break fileKey')
          end = Continue (Some fileKey)
      \/ snd match id_Unwrap id r with
             | (fileKey', Some e) =>
               if is_incorrect e then
                 tell (EvUnwrap s i fileKey' (Some e))
                      (run_plan rest fileKey')
               else ([EvUnwrap s i fileKey' (Some e)], Return e)
             | (fileKey', None) =>
               ([EvUnwrap s i fileKey' None], Break fileKey')
             end = Break (Some fileKey) ->
      exists s0 r0 i0 id0 err,
        In (Try s0 r0 i0 id0) (Try s r i id :: rest)
        /\ id_Unwrap id0 r0 = (Some fileKey, err)
        /\ (err = None \/ err = Some ErrIncorrectIdentity)).
    { destruct (id_Unwrap id r) as [fk [e |]] eqn:Hu.
      - destruct e as [| msg]; cbn [is_incorrect tell snd].
        + intros H. destruct (Hrest fk H) as [-> | Hex]; [| exact Hex].
          exists s, r, i, id, (Some ErrIncorrectIdentity).
          auto using in_eq.
        + intros [H | H]; discriminate H.
      - cbn. intros [H | H]; [discriminate H |]. injection H as ->.
        exists s, r, i, id, None. auto using in_eq. }
    cbn [run_plan]. destruct (id_Match id) as [matcher |]; [| auto].
    destruct (matcher r) as [e |]; [| cbn [tell snd]; auto].
    destruct (is_incorrect e); cbn [tell snd];
      [apply Hrest | intros [H | H]; discriminate H].
Qed.

(** An error that ends the scan is never the sentinel. *)
Lemma run_plan_return (plan : list Step) :
  forall fileKey e,
    snd (run_plan plan fileKey) = Return e -> is_incorrect e = false.
Proof.
  induction plan as [| [s | s r i id] rest IH]; intros fileKey e.
  - discriminate.
  - cbn. intros H. injection H as <-. reflexivity.
  - assert (Hunwrap :
      snd match id_Unwrap id r with
          | (fileKey', Some e') =>
            if is_incorrect e' then
              tell (EvUnwrap s i fileKey' (Some e'))
                   (run_plan rest fileKey')
            else ([EvUnwrap s i fileKey' (Some e')], Return e')
          | (fileKey', None) =>
            ([EvUnwrap s i fileKey' None], Break fileKey')
          end = Return e -> is_incorrect e = false).
    { destruct (id_Unwrap id r) as [fk [e' |]]; [| discriminate].
      destruct (is_incorrect e') eqn:He'; cbn [tell snd]; [apply IH |].
      intros H. injection H as <-. exact He'. }
    cbn [run_plan]. destruct (id_Match id) as [matcher |]; [| exact Hunwrap].
    destruct (matcher r) as [e' |]; [| exact Hunwrap].
    destruct (is_incorrect e') eqn:He'; cbn [tell snd]; [apply IH |].
    intros H. injection H as <-. exact He'.
Qed.

(** X2. Whenever [Decrypt] returns a reader, the source parsed to a
    header of at most 20 stanzas whose stored MAC equals the header MAC
    computed under a file key that the [Unwrap] of one of the caller's
    identities returned for a stanza of its own type (with no error, or
    with incorrect-identity); the 16 bytes after the header were read as
    the nonce, and the reader is the stream reader for
    [streamKey fileKey nonce] over the rest of the source. *)
Theorem Decrypt_success_sound (src : Reader) (identities : list Identity)
    (tr : list Event) (rd : Reader) :
  Decrypt src identities = (tr, Ok rd) ->
  exists hdr payload fileKey nonce payload',
    identities <> []
    /\ Parse src = ok (hdr, payload)
    /\ (List.length (Recipients hdr) <= 20)%nat
    /\ (exists s r i id err,
           nth_error (Recipients hdr) s = Some r
           /\ nth_error identities i = Some id
           /\ id_Type id = Type_ r
           /\ id_Unwrap id r = (Some fileKey, err)
           /\ (err = None \/ err = Some ErrIncorrectIdentity))
    /\ headerMAC fileKey hdr = ok (MAC hdr)
    /\ io_ReadFull 16 payload = (ok nonce, payload')
    /\ stream_NewReader (streamKey fileKey nonce) payload' = ok rd.
Proof.
  unfold Decrypt.
  destruct identities as [| id0 ids]; [discriminate |].
  cbn [List.length Nat.eqb].
  destruct (Parse src) as [[hdr payload] | msg]; [| discriminate].
  destruct (Nat.ltb_spec 20 (List.length (Recipients hdr))) as [Hgt | Hle];
    [discriminate |].
  rewrite RecipientsLoop_plan.
  pose proof (run_plan_key_source
                (plan_from (List.length (Recipients hdr)) (id0 :: ids) 0
                           (Recipients hdr)) None) as Hsrc.
  destruct (run_plan _ None) as [tr0 c].
  cbn [snd] in Hsrc.
  assert (Hkey : forall fileKey,
    c = Continue (Some fileKey) \/ c = Break (Some fileKey) ->
    (let '(tr', res) := verifyAndOpen hdr payload fileKey in
     ((EvParse :: tr0 ++ tr')%list, res)) = (tr, Ok rd) ->
    exists hdr0 payload0 fileKey0 nonce payload',
      id0 :: ids <> []
      /\ ok (hdr, payload) = ok (hdr0, payload0)
      /\ (List.length (Recipients hdr0) <= 20)%nat
      /\ (exists s r i id err,
             nth_error (Recipients hdr0) s = Some r
             /\ nth_error (id0 :: ids) i = Some id
             /\ id_Type id = Type_ r
             /\ id_Unwrap id r = (Some fileKey0, err)
             /\ (err = None \/ err = Some ErrIncorrectIdentity))
      /\ headerMAC fileKey0 hdr0 = ok (MAC hdr0)
      /\ io_ReadFull 16 payload0 = (ok nonce, payload')
      /\ stream_NewReader (streamKey fileKey0 nonce) payload' = ok rd).
  { intros fileKey Hc. unfold verifyAndOpen.
    destruct (headerMAC fileKey hdr) as [mac | msg] eqn:Hmac;
      [| discriminate].
    destruct (hmac_Equal mac (MAC hdr)) eqn:Heq; cbn [negb];
      [| discriminate].
    apply hmac_Equal_true in Heq. subst mac.
    destruct (io_ReadFull 16 payload) as [[nonce | msg] payload'] eqn:Hread;
      [| discriminate].
    destruct (stream_NewReader _ payload') as [rd' | msg] eqn:Hnew;
      [| discriminate].
    intros H. injection H as _ <-.
    exists hdr, payload, fileKey, nonce, payload'.
    split; [discriminate |]. split; [reflexivity |]. split; [exact Hle |].
    split; [| auto].
    destruct (Hsrc fileKey Hc)
      as [H | (s & r & i & id & err & Hin & Hu & Herr)]; [discriminate H |].
    apply in_try_plan_from in Hin. rewrite Nat.sub_0_r in Hin.
    destruct Hin as (_ & Hr & Hi & Hty).
    exists s, r, i, id, err. auto. }
  destruct c as [[fk |] | [fk |] | e]; try discriminate;
    apply Hkey; auto.
Qed.

(** X4. Neither [Decrypt] nor [Encrypt] ever hands the sentinel
    [ErrIncorrectIdentity] to its caller: [Decrypt] takes it as "try the
    next identity", and [Encrypt] wraps the error of a failed [Wrap] in an
    error of its own. *)
Theorem pipeline_errors_not_sentinel :
  (forall (src : Reader) (identities : list Identity) (e : error),
      snd (Decrypt src identities) = Error e -> e <> ErrIncorrectIdentity)
  /\ (forall (dst : Writer) (recipients : list Recipient) (rng : RNG)
             (e : error),
         snd (fst (fst (Encrypt dst recipients rng))) = Error e ->
         e <> ErrIncorrectIdentity).
Proof.
  split.
  - intros src identities e. unfold Decrypt.
    destruct (List.length identities =? 0)%nat;
      [intros H; injection H as <-; discriminate |].
    destruct (Parse src) as [[hdr payload] | msg];
      [| intros H; injection H as <-; discriminate].
    destruct (20 <? List.length (Recipients hdr))%nat;
      [intros H; injection H as <-; discriminate |].
    rewrite RecipientsLoop_plan.
    pose proof (run_plan_return
                  (plan_from (List.length (Recipients hdr)) identities 0
                             (Recipients hdr)) None) as Hret.
    destruct (run_plan _ None) as [tr0 c]. cbn [snd] in Hret.
    assert (Hopen : forall fileKey,
      snd (let '(tr', res) := verifyAndOpen hdr payload fileKey in
           ((EvParse :: tr0 ++ tr')%list, res)) = Error e ->
      e <> ErrIncorrectIdentity).
    { intros fileKey. unfold verifyAndOpen.
      destruct (headerMAC fileKey hdr) as [mac | msg];
        [| intros H; injection H as <-; discriminate].
      destruct (negb (hmac_Equal mac (MAC hdr)));
        [intros H; injection H as <-; discriminate |].
      destruct (io_ReadFull 16 payload) as [[nonce | msg] payload'];
        [| intros H; injection H as <-; discriminate].
      destruct (stream_NewReader _ payload');
        [discriminate | intros H; injection H as <-; discriminate]. }
    destruct c as [[fk |] | [fk |] | e']; try apply Hopen;
      cbn [snd]; intros H; injection H as <-; try discriminate.
    specialize (Hret e' eq_refl). intros ->. discriminate Hret.
  - intros dst recipients rng e. unfold Encrypt.
    destruct (List.length recipients =? 0)%nat;
      [intros H; injection H as <-; discriminate |].
    destruct (rand_Read 16 rng) as [[fileKey | msg] rng1];
      [| intros H; injection H as <-; discriminate].
    assert (Hloop : forall rs n i0 stanzas rng0 e0,
      snd (fst (wrapLoop n fileKey i0 rs stanzas rng0)) = Error e0 ->
      e0 <> ErrIncorrectIdentity).
    { induction rs as [| r rs IH]; intros n i0 stanzas rng0 e0;
        cbn [wrapLoop]; [discriminate |].
      destruct (_ && _); [intros H; injection H as <-; discriminate |].
      destruct (rcp_Wrap r fileKey rng0) as [[block | e1] rng'];
        [| intros H; injection H as <-; discriminate].
      specialize (IH n (S i0) (stanzas ++ [block])%list rng' e0).
      destruct (wrapLoop n fileKey (S i0) rs _ rng') as [[tr res] rng''].
      exact IH. }
    specialize (Hloop recipients (List.length recipients) 0%nat [] rng1 e).
    destruct (wrapLoop (List.length recipients) fileKey 0 recipients []
                       rng1) as [[tr [stanzas | e1]] rng2];
      cbn [fst snd] in *;
      [| intros H; injection H as <-; apply Hloop; reflexivity].
    unfold writeHeader.
    destruct (headerMAC fileKey _) as [mac | msg];
      [| intros H; injection H as <-; discriminate].
    destruct (Marshal _ dst) as [[msg |] dst1];
      [intros H; injection H as <-; discriminate |].
    destruct (rand_Read 16 rng2) as [[nonce | msg] rng3];
      [| intros H; injection H as <-; discriminate].
    destruct (io_Write nonce dst1) as [[msg |] dst2];
      [intros H; injection H as <-; discriminate |].
    destruct (stream_NewWriter _ dst2);
      [discriminate | intros H; injection H as <-; discriminate].
Qed.

End DecryptSuccess.

(** ** [Decrypt]: which stanza, which identity *)

Section DecryptFinds.
Context {E : Env}.

Lemma run_plan_skips (plan : list Step) :
  (forall s, ~ In (Reject s) plan) ->
  (forall s r i id, In (Try s r i id) plan -> answers_incorrect id r) ->
  exists tr, run_plan plan None = (tr, Continue None).
Proof.
  intros Hrej Hinc.
  pose proof (run_plan_all_incorrect plan Hrej Hinc) as H.
  destruct (run_plan plan None) as [tr c]. cbn in H. subst c. eauto.
Qed.

(** X3. In a header within the stanza limit and the scrypt policy, let
    the identity at position [i] unwrap the stanza at position [s] (its
    [Match], if it has one, accepting the stanza first), and let every
    pair of a stanza and an identity of its type that comes before
    [(s, i)] in stanza-major order answer incorrect-identity.  Then
    [Decrypt] goes on with the file key of that [Unwrap]: its result is
    that of the header MAC check and the opening of the stream under this
    key, whatever the later stanzas and identities are. *)
Theorem Decrypt_finds_first_match (src : Reader)
    (identities : list Identity) (hdr : Header) (payload : Reader)
    (s i : nat) (r : Stanza) (id : Identity) (fileKey : bytes) :
  Parse src = ok (hdr, payload) ->
  (List.length (Recipients hdr) <= 20)%nat ->
  ~ scrypt_mixed hdr ->
  nth_error (Recipients hdr) s = Some r ->
  nth_error identities i = Some id ->
  id_Type id = Type_ r ->
  (id_Match id = None \/ exists m, id_Match id = Some m /\ m r = None) ->
  id_Unwrap id r = (Some fileKey, None) ->
  (forall s' r' i' id',
      nth_error (Recipients hdr) s' = Some r' ->
      nth_error identities i' = Some id' ->
      id_Type id' = Type_ r' ->
      (s' < s)%nat \/ (s' = s /\ (i' < i)%nat) ->
      answers_incorrect id' r') ->
  snd (Decrypt src identities) = snd (verifyAndOpen hdr payload fileKey)
  /\ exists tr,
       fst (Decrypt src identities)
       = (EvParse :: tr ++ fst (verifyAndOpen hdr payload fileKey))%list
       /\ Forall (fun ev => is_scan_event ev = true) tr.
Proof.
  intros Hparse Hlen Hpol Hr Hi Hty Hmatch Hunwrap Hbefore.
  assert (Hids : identities <> []).
  { intros ->. destruct i; discriminate Hi. }
  rewrite (Decrypt_parsed src identities hdr payload Hids Hparse Hlen).
  pose proof (RecipientsLoop_events (List.length (Recipients hdr))
                identities 0 (Recipients hdr) None) as Hev.
  rewrite RecipientsLoop_plan in *.
  set (plan := plan_from (List.length (Recipients hdr)) identities 0
                         (Recipients hdr)) in *.
  assert (Hin : In (Try s r i id) plan).
  { apply in_try_plan_from. rewrite Nat.sub_0_r. repeat split; auto; lia. }
  destruct (in_split _ _ Hin) as (l1 & l2 & Hsplit).
  pose proof (plan_from_sorted (List.length (Recipients hdr)) identities
                (Recipients hdr) 0) as Hsorted.
  fold plan in Hsorted. rewrite Hsplit in Hsorted.
  apply StronglySorted_before in Hsorted. rewrite Forall_forall in Hsorted.
  assert (Hl1 : forall st, In st l1 -> In st plan).
  { intros st Hst. rewrite Hsplit. apply in_or_app. auto. }
  destruct (run_plan_skips l1) as [tr1 Hrun1].
  { intros s' Hs'. apply Hl1, in_reject_plan_from in Hs'.
    destruct Hs' as (_ & r' & Hnth & Hr' & Hn).
    apply Hpol. split; [| exact Hn].
    exists r'. split; [eapply nth_error_In, Hnth | exact Hr']. }
  { intros s' r' i' id' Hs'.
    pose proof (Hsorted _ Hs') as Hlt.
    apply Hl1, in_try_plan_from in Hs'. rewrite Nat.sub_0_r in Hs'.
    destruct Hs' as (_ & Hr' & Hi' & Hty').
    apply (Hbefore s' r' i' id' Hr' Hi' Hty').
    destruct Hlt as [Hlt | [Heq Hlt]]; cbn in *; [auto | right; lia]. }
  assert (Hstep : exists ev,
    run_plan (Try s r i id :: l2) None
    = (ev ++ [EvUnwrap s i (Some fileKey) None], Break (Some fileKey))%list).
  { cbn [run_plan]. rewrite Hunwrap.
    destruct Hmatch as [-> | (m & -> & ->)];
      [exists [] | exists [EvMatch s i None]]; reflexivity. }
  destruct Hstep as [ev Hstep].
  assert (Hrun : run_plan plan None
                 = ((tr1 ++ ev ++ [EvUnwrap s i (Some fileKey) None])%list,
                    Break (Some fileKey))).
  { rewrite Hsplit, run_plan_app, Hrun1. cbn [and_then].
    rewrite Hstep. reflexivity. }
  rewrite Hrun in *. cbn [fst snd after_scan] in *.
  split; [reflexivity |]. eexists. split; [reflexivity | exact Hev].
Qed.

(** X5. Two edges of the scan that follow from [fileKey, err =
    i.Unwrap(r)].  A file key that [Unwrap] returns together with
    incorrect-identity stays in [fileKey]: with one stanza and one
    identity of its type, [Decrypt] does not fail with "no identity
    matched a recipient" but goes on to the header MAC under that key.
    And an [Unwrap] that succeeds with the nil key ends the scan like any
    success: when it is the first call, [Decrypt] fails with "no identity
    matched a recipient" without trying any other stanza or identity. *)
Theorem Decrypt_fileKey_assignment :
  (forall (src : Reader) (hdr : Header) (payload : Reader) (r : Stanza)
          (id : Identity) (fileKey : bytes),
      Parse src = ok (hdr, payload) ->
      Recipients hdr = [r] ->
      id_Type id = Type_ r ->
      id_Match id = None ->
      id_Unwrap id r = (Some fileKey, Some ErrIncorrectIdentity) ->
      Decrypt src [id]
      = (EvParse :: EvUnwrap 0 0 (Some fileKey) (Some ErrIncorrectIdentity)
           :: fst (verifyAndOpen hdr payload fileKey),
         snd (verifyAndOpen hdr payload fileKey)))
  /\ (forall (src : Reader) (hdr : Header) (payload : Reader) (r : Stanza)
             (rest : list Stanza) (id : Identity)
             (identities : list Identity),
         Parse src = ok (hdr, payload) ->
         Recipients hdr = r :: rest ->
         (List.length (Recipients hdr) <= 20)%nat ->
         Type_ r <> "scrypt" ->
         id_Type id = Type_ r ->
         id_Match id = None ->
         id_Unwrap id r = (None, None) ->
         Decrypt src (id :: identities)
         = ([EvParse; EvUnwrap 0 0 None None],
            Error (Err "no identity matched a recipient"))).
Proof.
  split.
  - intros src hdr payload r id fileKey Hparse Hrs Hty Hmatch Hunwrap.
    rewrite (Decrypt_parsed src [id] hdr payload);
      [| discriminate | exact Hparse | rewrite Hrs; cbn; lia].
    rewrite Hrs. cbn [RecipientsLoop identitiesLoop List.length Nat.eqb negb].
    rewrite andb_false_r, Hty, String.eqb_refl, Hmatch, Hunwrap.
    reflexivity.
  - intros src hdr payload r rest id identities Hparse Hrs Hlen Hr Hty
           Hmatch Hunwrap.
    rewrite (Decrypt_parsed src (id :: identities) hdr payload);
      [| discriminate | exact Hparse | exact Hlen].
    rewrite Hrs. cbn [RecipientsLoop identitiesLoop].
    apply String.eqb_neq in Hr. rewrite Hr. cbn [andb].
    rewrite Hty, String.eqb_refl, Hmatch, Hunwrap. reflexivity.
Qed.

End DecryptFinds.

(** ** Round trips of the two schemes *)

Section SchemeRoundTrips.
Context {E : Env}.

Lemma X25519_opens (secret : bytes) (i : X25519Identity) :
  PrimitiveLaws ->
  NewX25519Identity secret = Ok i ->
  opens (X25519Identity_iface i)
        (X25519Recipient_iface (X25519Identity_Recipient i)).
Proof.
  intros laws Hnew. split; [reflexivity |]. split; [reflexivity |].
  intros fileKey rng stanza rng' Hlen.
  cbn [rcp_Wrap rcp_Type id_Unwrap X25519Recipient_iface
       X25519Identity_iface].
  unfold X25519Recipient_Wrap.
  cbn [X25519Identity_Recipient theirPublicKey].
  destruct (rand_Read ScalarSize rng) as [[ephemeral | msg] rng1];
    [| discriminate].
  destruct (X25519 ephemeral Basepoint) as [ourPub | msg] eqn:Hpub;
    [| discriminate].
  destruct (X25519 ephemeral (ourPublicKey i)) as [sharedSecret | msg]
    eqn:Hshared; [| discriminate].
  destruct (hkdf_sha256 sharedSecret _ _ KeySize) as [wrappingKey | msg]
    eqn:Hkdf; [| discriminate].
  destruct (aeadEncrypt wrappingKey fileKey) as [wrappedKey | msg]
    eqn:Haead; [| discriminate].
  cbn [Type_ Args]. intros Heq. injection Heq as <- <-.
  split; [reflexivity |].
  destruct (NewX25519Identity_inv secret i Hnew) as (Hsec & Hsk & Hpk).
  destruct (X25519_base laws secret Hsec) as [A HA]. rewrite HA in Hpk.
  assert (Hagree : X25519 (secretKey i) ourPub = ok sharedSecret).
  { rewrite Hsk, <- (X25519_agree laws ephemeral secret ourPub A Hpub HA).
    rewrite <- Hpk. exact Hshared. }
  unfold X25519Identity_Unwrap. cbn [Type_ Args Body nth List.length].
  replace ("X25519" =? "X25519")%string with true by reflexivity.
  cbn [Nat.eqb negb]. rewrite (codec_roundtrip laws ourPub).
  rewrite (X25519_size laws _ _ _ Hpub), Nat.eqb_refl. cbn [negb].
  rewrite Hagree, Hkdf.
  rewrite (aead_roundtrip laws wrappingKey fileKey wrappedKey);
    [reflexivity | | exact Haead].
  intros ->. discriminate Hlen.
Qed.

(** X6. A stanza that [ScryptRecipient.Wrap] returns for a recipient
    with a work factor from 1 to 30, given to [ScryptIdentity.Unwrap] of
    an identity with the same passphrase: if the work factor is within the
    identity's maximum, [Unwrap] makes the same KDF call as [Wrap] did
    (the label and the 16 random bytes as salt, [N = 2^logN], r = 8,
    p = 1) and returns the file key; if it is above the maximum, [Unwrap]
    fails with "scrypt work factor too large" and calls no KDF. *)
Theorem Scrypt_wrap_unwrap (r : ScryptRecipient) (i : ScryptIdentity)
    (fileKey : bytes) (rng rng' : RNG) (calls : list KdfCall)
    (stanza : Stanza) :
  WrapLaws ->
  1 <= workFactor r <= 30 ->
  si_password i = sr_password r ->
  fileKey <> [] ->
  ScryptRecipient_Wrap r fileKey rng = ((calls, Ok stanza), rng') ->
  (exists salt,
      rand_Read 16 rng = (ok salt, rng')
      /\ calls = [ScryptKey (sr_password r)
                    (list_byte_of_string scryptLabel ++ salt)%list
                    (2 ^ workFactor r) 8 1 32])
  /\ (workFactor r <= maxWorkFactor i ->
      ScryptIdentity_Unwrap i stanza = (calls, (Some fileKey, None)))
  /\ (maxWorkFactor i < workFactor r ->
      ScryptIdentity_Unwrap i stanza
      = ([], (None, Some (Err ("scrypt work factor too large: "
                               ++ Itoa (workFactor r)))))).
Proof.
  intros laws Hwf Hpw Hne. unfold ScryptRecipient_Wrap.
  destruct (rand_Read 16 rng) as [[salt | msg] rng1] eqn:Hrand;
    [| discriminate].
  rewrite shl_int_pow2 by lia. change (Z.of_nat KeySize) with 32.
  destruct (scrypt_Key _ _ _ _ _ _) as [k | msg] eqn:Hkdf; [| discriminate].
  destruct (aeadEncrypt k fileKey) as [wrappedKey | msg] eqn:Haead;
    [| discriminate].
  cbn [Type_ Args]. intros Heq. injection Heq as <- <- <-.
  split; [eauto |].
  unfold ScryptIdentity_Unwrap. cbn [Type_ Args Body nth List.length].
  replace ("scrypt" =? "scrypt")%string with true by reflexivity.
  cbn [Nat.eqb negb]. rewrite (wl_codec laws salt).
  rewrite (rand_full laws _ _ _ _ Hrand). cbn [Nat.eqb negb].
  rewrite (Atoi_Itoa laws _ Hwf). split.
  - intros Hle.
    destruct (Z.gtb_spec (workFactor r) (maxWorkFactor i)); [lia |].
    destruct (Z.leb_spec (workFactor r) 0); [lia |].
    rewrite shl_int_pow2 by lia. change (Z.of_nat KeySize) with 32.
    rewrite Hpw, Hkdf.
    rewrite (wl_aead laws k fileKey wrappedKey Hne Haead). reflexivity.
  - intros Hgt.
    destruct (Z.gtb_spec (workFactor r) (maxWorkFactor i)); [| lia].
    reflexivity.
Qed.

Lemma Scrypt_opens (r : ScryptRecipient) (i : ScryptIdentity) :
  WrapLaws ->
  1 <= workFactor r <= 30 ->
  workFactor r <= maxWorkFactor i ->
  si_password i = sr_password r ->
  opens (ScryptIdentity_iface i) (ScryptRecipient_iface r).
Proof.
  intros laws Hwf Hle Hpw. split; [reflexivity |]. split; [reflexivity |].
  intros fileKey rng stanza rng' Hlen.
  cbn [rcp_Wrap rcp_Type id_Unwrap ScryptRecipient_iface
       ScryptIdentity_iface].
  destruct (ScryptRecipient_Wrap r fileKey rng) as [[calls res] rng1]
    eqn:Hwrap.
  intros Heq. injection Heq as -> ->.
  assert (Hne : fileKey <> []) by (intros ->; discriminate Hlen).
  assert (Hty : Type_ stanza = "scrypt").
  { revert Hwrap. unfold ScryptRecipient_Wrap.
    destruct (rand_Read 16 rng) as [[salt | msg] rng2]; [| discriminate].
    destruct (scrypt_Key _ _ _ _ _ _); [| discriminate].
    destruct (aeadEncrypt _ fileKey); [| discriminate].
    intros Heq. injection Heq as _ <- _. reflexivity. }
  split; [exact Hty |].
  unfold ScryptIdentity_Unwrap. cbn [Type_ Args Body nth List.length].
  revert Hwrap. unfold ScryptRecipient_Wrap.
  destruct (rand_Read 16 rng) as [[salt | msg] rng2] eqn:Hrand;
    [| discriminate].
  rewrite shl_int_pow2 by lia. change (Z.of_nat KeySize) with 32.
  destruct (scrypt_Key _ _ _ _ _ _) as [k | msg] eqn:Hkdf; [| discriminate].
  destruct (aeadEncrypt k fileKey) as [wrappedKey | msg] eqn:Haead;
    [| discriminate].
  cbn [Type_ Args]. intros Heq. injection Heq as _ <- _.
  cbn [Type_ Args Body nth List.length].
  replace ("scrypt" =? "scrypt")%string with true by reflexivity.
  cbn [Nat.eqb negb]. rewrite (wl_codec laws salt).
  rewrite (rand_full laws _ _ _ _ Hrand). cbn [Nat.eqb negb].
  rewrite (Atoi_Itoa laws _ Hwf).
  destruct (Z.gtb_spec (workFactor r) (maxWorkFactor i)); [lia |].
  destruct (Z.leb_spec (workFactor r) 0); [lia |].
  rewrite shl_int_pow2 by lia. change (Z.of_nat KeySize) with 32.
  rewrite Hpw, Hkdf.
  rewrite (wl_aead laws k fileKey wrappedKey Hne Haead). reflexivity.
Qed.

End SchemeRoundTrips.

(** ** Building keys *)

Section Constructors.
Context {E : Env}.

Lemma string_length_0 (s : string) :
  (String.length s =? 0)%nat = true <-> s = "".
Proof. destruct s; cbn; split; congruence. Qed.

(** X7. [NewScryptRecipient] and [NewScryptIdentity] reject exactly the
    empty passphrase.  For any other passphrase they give a recipient
    with work factor 18 and an identity with maximum 22 over the bytes of
    the passphrase; the identity opens what the recipient wraps, also
    after [SetWorkFactor] with a value from 1 to 22, and rejects with
    "scrypt work factor too large" what the recipient wraps after
    [SetWorkFactor] with a value from 23 to 30. *)
Theorem NewScrypt_defaults (password : string) :
  (password = "" ->
   NewScryptRecipient password = Error (Err "passphrase can't be empty")
   /\ NewScryptIdentity password = Error (Err "passphrase can't be empty"))
  /\ (password <> "" ->
      exists r i,
        NewScryptRecipient password = Ok r
        /\ NewScryptIdentity password = Ok i
        /\ sr_password r = list_byte_of_string password
        /\ si_password i = list_byte_of_string password
        /\ workFactor r = 18
        /\ maxWorkFactor i = 22
        /\ (WrapLaws ->
            opens (ScryptIdentity_iface i) (ScryptRecipient_iface r)
            /\ forall logN r',
                 SetWorkFactor r logN = Returns r' ->
                 (logN <= 22 ->
                  opens (ScryptIdentity_iface i)
                        (ScryptRecipient_iface r'))
                 /\ (22 < logN ->
                     forall fileKey rng stanza rng',
                       rcp_Wrap (ScryptRecipient_iface r') fileKey rng
                       = (Ok stanza, rng') ->
                       id_Unwrap (ScryptIdentity_iface i) stanza
                       = (None,
                          Some (Err ("scrypt work factor too large: "
                                     ++ Itoa logN)))))).
Proof.
  split.
  - intros ->. split; reflexivity.
  - intros Hne. unfold NewScryptRecipient, NewScryptIdentity.
    destruct (String.length password =? 0)%nat eqn:Hlen.
    { apply string_length_0 in Hlen. contradiction. }
    do 2 eexists. do 6 (split; [reflexivity |]).
    intros laws. split.
    + apply Scrypt_opens; cbn; auto; lia.
    + intros logN r'. unfold SetWorkFactor.
      destruct (Z.gtb_spec logN 30) as [Hhi | Hhi];
        destruct (Z.ltb_spec logN 1) as [Hlo | Hlo]; cbn [orb];
        try discriminate.
      intros Heq. injection Heq as <-. cbn [sr_password]. split.
      * intros Hle. apply Scrypt_opens; cbn; auto; lia.
      * intros Hgt fileKey rng stanza rng'.
        cbn [rcp_Wrap id_Unwrap ScryptRecipient_iface
             ScryptIdentity_iface].
        unfold ScryptRecipient_Wrap. cbn [workFactor sr_password].
        destruct (rand_Read 16 rng) as [[salt | msg] rng1] eqn:Hrand;
          [| discriminate].
        destruct (scrypt_Key _ _ _ _ _ _) as [k | msg]; [| discriminate].
        destruct (aeadEncrypt k fileKey) as [wrappedKey | msg];
          [| discriminate].
        cbn [Type_ Args]. intros Heq. injection Heq as <- _.
        unfold ScryptIdentity_Unwrap.
        cbn [Type_ Args Body nth List.length maxWorkFactor].
        replace ("scrypt" =? "scrypt")%string with true by reflexivity.
        cbn [Nat.eqb negb]. rewrite (wl_codec laws salt).
        rewrite (rand_full laws _ _ _ _ Hrand). cbn [Nat.eqb negb].
        rewrite (Atoi_Itoa laws logN) by lia.
        destruct (Z.gtb_spec logN 22); [reflexivity | lia].
Qed.

(** X8. [NewX25519Identity] and [NewX25519Recipient] reject exactly the
    keys that are not 32 bytes long.  An identity made from a 32-byte
    scalar keeps the scalar and caches the X25519 of the scalar and the
    base point as its public key; should that X25519 call fail, the error
    is dropped and the public key is the nil slice, which
    [NewX25519Recipient] rejects.  When X25519 keeps its laws the call
    does not fail, and the public key of the identity is accepted by
    [NewX25519Recipient] as the recipient that the identity's own
    [Recipient] method returns. *)
Theorem NewX25519_keys (key : bytes) :
  (List.length key <> 32%nat ->
   NewX25519Identity key = Error (Err "invalid X25519 secret key")
   /\ NewX25519Recipient key = Error (Err "invalid X25519 public key"))
  /\ (List.length key = 32%nat ->
      NewX25519Recipient key = Ok {| theirPublicKey := key |}
      /\ exists i,
           NewX25519Identity key = Ok i
           /\ secretKey i = key
           /\ (forall P, X25519 key Basepoint = ok P -> ourPublicKey i = P)
           /\ (forall msg,
                  X25519 key Basepoint = failed msg ->
                  ourPublicKey i = []
                  /\ NewX25519Recipient (ourPublicKey i)
                     = Error (Err "invalid X25519 public key"))
           /\ (PrimitiveLaws ->
               NewX25519Recipient (ourPublicKey i)
               = Ok (X25519Identity_Recipient i))).
Proof.
  unfold NewX25519Identity, NewX25519Recipient. split.
  - intros Hlen. apply Nat.eqb_neq in Hlen.
    change PointSize with 32%nat. change ScalarSize with 32%nat.
    rewrite Hlen. split; reflexivity.
  - intros Hlen. change PointSize with 32%nat. change ScalarSize with 32%nat.
    rewrite Hlen. cbn [Nat.eqb negb]. split; [reflexivity |].
    eexists. split; [reflexivity |]. cbn [secretKey ourPublicKey].
    split; [reflexivity |]. split; [intros P ->; reflexivity |]. split.
    + intros msg ->. split; reflexivity.
    + intros laws. destruct (X25519_base laws key Hlen) as [A HA].
      rewrite HA. rewrite (X25519_size laws _ _ _ HA).
      reflexivity.
Qed.

(** X9. [GenerateX25519Identity] draws 32 bytes from the random source.
    If the source fails, the error is "internal error: " followed by the
    source's message.  If the source fills the buffer, the result is the
    identity [NewX25519Identity] makes of those bytes, never the error
    for a scalar of the wrong length; and when the primitives keep their
    laws this identity opens what its own recipient wraps. *)
Theorem GenerateX25519Identity_ok (rng : RNG) :
  (forall msg rng',
      rand_Read 32 rng = (failed msg, rng') ->
      GenerateX25519Identity rng
      = (Error (Err ("internal error: " ++ msg)), rng'))
  /\ (WrapLaws ->
      forall scalar rng',
        rand_Read 32 rng = (ok scalar, rng') ->
        exists i,
          GenerateX25519Identity rng = (Ok i, rng')
          /\ NewX25519Identity scalar = Ok i
          /\ secretKey i = scalar
          /\ (PrimitiveLaws ->
              opens (X25519Identity_iface i)
                    (X25519Recipient_iface (X25519Identity_Recipient i)))).
Proof.
  unfold GenerateX25519Identity. change ScalarSize with 32%nat. split.
  - intros msg rng' ->. reflexivity.
  - intros laws scalar rng' Hrand. rewrite Hrand.
    pose proof (rand_full laws _ _ _ _ Hrand) as Hlen.
    assert (Hnew : exists i, NewX25519Identity scalar = Ok i
                             /\ secretKey i = scalar).
    { unfold NewX25519Identity. change ScalarSize with 32%nat.
      rewrite Hlen. cbn [Nat.eqb negb]. eexists. split; reflexivity. }
    destruct Hnew as (i & Hnew & Hsk). exists i. rewrite Hnew.
    split; [reflexivity |]. split; [reflexivity |]. split; [exact Hsk |].
    intros plaws. apply (X25519_opens scalar i plaws Hnew).
Qed.

End Constructors.

(** ** From [Encrypt] to [Decrypt] *)

Section PipelineRoundTrip.
Context {E : Env}.

Lemma wraps_head (fileKey : bytes) (rng rng' : RNG) (r : Recipient)
    (rs : list Recipient) (ss : list Stanza) :
  wraps fileKey rng (r :: rs) ss rng' ->
  exists s ss' rng1,
    ss = s :: ss' /\ rcp_Wrap r fileKey rng = (Ok s, rng1).
Proof. inversion 1; subst; eauto. Qed.

(** X10. If [Encrypt] succeeds for at most 20 recipients, then on any
    source that parses to the header it wrote, [Decrypt] with an identity
    that opens the first recipient in front of the caller's list unwraps
    the first stanza, finds the header MAC equal to the stored one, reads
    the next 16 bytes as the nonce and returns the stream reader for the
    file key that [Encrypt] drew; when those 16 bytes are the nonce that
    [Encrypt] wrote, the reader has the key of the writer. *)
Theorem Encrypt_then_Decrypt (dst : Writer) (r0 : Recipient)
    (rs : list Recipient) (rng : RNG) (tr : list Event) (w : WriteCloser)
    (dst' : Writer) (rng' : RNG) (id : Identity) :
  WrapLaws ->
  opens id r0 ->
  (List.length (r0 :: rs) <= 20)%nat ->
  Encrypt dst (r0 :: rs) rng = (tr, Ok w, dst', rng') ->
  exists fileKey hdr nonce,
    encrypted dst (r0 :: rs) rng fileKey hdr nonce w dst' rng'
    /\ forall src payload others nonce' payload',
         Parse src = ok (hdr, payload) ->
         io_ReadFull 16 payload = (ok nonce', payload') ->
         Decrypt src (id :: others)
         = ([EvParse; EvUnwrap 0 0 (Some fileKey) None;
             EvHeaderMAC fileKey; EvReadNonce; EvNewReader],
            match stream_NewReader (streamKey fileKey nonce') payload' with
            | ok rd => Ok rd
            | failed msg => Error (Err msg)
            end).
Proof.
  intros laws (Hty & Hmatch & Hopen) Hlen Henc.
  apply Encrypt_ok_inv in Henc.
  destruct Henc as (_ & Hs & fileKey & hdr & nonce & Henc & _).
  exists fileKey, hdr, nonce. split; [exact Henc |].
  destruct Henc as (rng1 & rng2 & dst1 & Hkey & Hw & Hmac & _).
  pose proof (wraps_length _ _ _ _ _ Hw) as Hn.
  destruct (wraps_head _ _ _ _ _ _ Hw) as (s0 & ss & rng3 & Hss & Hwrap).
  destruct (Hopen fileKey rng1 s0 rng3 (rand_full laws _ _ _ _ Hkey) Hwrap)
    as [Hs0 Hunwrap].
  intros src payload others nonce' payload' Hparse Hread.
  rewrite (Decrypt_parsed src (id :: others) hdr payload);
    [| discriminate | exact Hparse | rewrite Hn; exact Hlen].
  rewrite Hss. cbn [RecipientsLoop identitiesLoop].
  assert (Hgate : (Type_ s0 =? "scrypt")%string
                  && negb (List.length (Recipients hdr) =? 1)%nat = false).
  { destruct (String.eqb_spec (Type_ s0) "scrypt") as [Hsc | Hsc];
      [| reflexivity].
    rewrite Hn, (Hs r0 (in_eq _ _)) by congruence. reflexivity. }
  rewrite <- Hss, Hgate, Hty, Hs0, String.eqb_refl, Hmatch, Hunwrap.
  cbn [negb fst snd after_scan]. unfold verifyAndOpen.
  destruct hdr as [stanzas mac]. cbn [Recipients MAC] in *.
  rewrite (headerMAC_without_MAC laws fileKey stanzas mac []), Hmac.
  rewrite (proj2 (hmac_Equal_true mac mac) eq_refl). cbn [negb].
  rewrite Hread.
  destruct (stream_NewReader _ payload'); reflexivity.
Qed.

(** X11. [Encrypt] puts no bound on the number of recipients, [Decrypt]
    accepts at most 20 stanzas: when [Encrypt] succeeds for more than 20
    recipients, the header it wrote has one stanza for each of them, and
    [Decrypt] fails with "too many recipients" on every source that
    parses to that header, whatever identities it is given. *)
Theorem Encrypt_beyond_Decrypt_limit (dst : Writer)
    (recipients : list Recipient) (rng : RNG) (tr : list Event)
    (w : WriteCloser) (dst' : Writer) (rng' : RNG) :
  (20 < List.length recipients)%nat ->
  Encrypt dst recipients rng = (tr, Ok w, dst', rng') ->
  exists fileKey hdr nonce,
    encrypted dst recipients rng fileKey hdr nonce w dst' rng'
    /\ List.length (Recipients hdr) = List.length recipients
    /\ forall src payload identities,
         identities <> [] ->
         Parse src = ok (hdr, payload) ->
         Decrypt src identities
         = ([EvParse], Error (Err "too many recipients")).
Proof.
  intros Hlen Henc. apply Encrypt_ok_inv in Henc.
  destruct Henc as (_ & _ & fileKey & hdr & nonce & Henc & _).
  exists fileKey, hdr, nonce. split; [exact Henc |].
  destruct Henc as (rng1 & rng2 & dst1 & _ & Hw & _).
  pose proof (wraps_length _ _ _ _ _ Hw) as Hn.
  split; [exact Hn |].
  intros src payload identities Hids Hparse. unfold Decrypt.
  rewrite (length_eqb_0 _ Hids), Hparse, Hn.
  apply Nat.ltb_lt in Hlen. rewrite Hlen. reflexivity.
Qed.

End PipelineRoundTrip.

(** ** Keys as text *)

Section KeysAsText.
Context {E : Env} {T : TextEnv}.

(** X12. When [pkg/bech32] keeps its laws, the text forms round-trip:
    for a recipient made by [NewX25519Recipient] whose key encodes,
    [ParseX25519Recipient] of its [String] is the recipient again; for an
    identity made by [NewX25519Identity] whose scalar encodes,
    [ParseX25519Identity] of its [String] is the identity again, public
    key included. *)
Theorem X25519_text_roundtrip :
  Bech32Laws ->
  (forall key r s,
      NewX25519Recipient key = Ok r ->
      bech32_Encode "age" key = ok s ->
      X25519Recipient_String r = s /\ ParseX25519Recipient s = Ok r)
  /\ (forall key i s,
         NewX25519Identity key = Ok i ->
         bech32_Encode "AGE-SECRET-KEY-" key = ok s ->
         X25519Identity_String i = s /\ ParseX25519Identity s = Ok i).
Proof.
  intros laws. split.
  - intros key r s Hnew Henc.
    assert (Hr : theirPublicKey r = key).
    { revert Hnew. unfold NewX25519Recipient.
      destruct (negb _); [discriminate |].
      intros H. injection H as <-. reflexivity. }
    unfold X25519Recipient_String, ParseX25519Recipient.
    rewrite Hr, Henc, (bech32_roundtrip laws _ _ _ Henc), Hnew.
    split; reflexivity.
  - intros key i s Hnew Henc.
    destruct (NewX25519Identity_inv key i Hnew) as (_ & Hsk & _).
    unfold X25519Identity_String, ParseX25519Identity.
    rewrite Hsk, Henc, (bech32_upper laws _ _ Henc).
    rewrite (bech32_roundtrip laws _ _ _ Henc), Hnew.
    split; reflexivity.
Qed.

(** X13. What the parsers refuse.  [ParseX25519Recipient] fails on a
    string that does not decode, that decodes with a prefix other than
    "age", or whose payload is not 32 bytes long; [ParseX25519Identity]
    likewise with the prefix "AGE-SECRET-KEY-".  So, when [pkg/bech32]
    keeps its laws, the text of a recipient is refused as an identity and
    the text of an identity is refused as a recipient, both with "invalid
    type". *)
Theorem X25519_parse_rejects :
  (forall s,
      (forall msg,
          bech32_Decode s = failed msg ->
          ParseX25519Recipient s
          = Error (Err ("malformed recipient " ++ quote s ++ ": " ++ msg))
          /\ ParseX25519Identity s
             = Error (Err ("malformed secret key " ++ quote s ++ ": "
                           ++ msg)))
      /\ (forall t k,
             bech32_Decode s = ok (t, k) ->
             (t <> "age" ->
              ParseX25519Recipient s
              = Error (Err ("malformed recipient " ++ quote s
                            ++ ": invalid type " ++ quote t)))
             /\ (t = "age" -> List.length k <> 32%nat ->
                 ParseX25519Recipient s
                 = Error (Err ("malformed recipient " ++ quote s
                               ++ ": invalid X25519 public key")))
             /\ (t <> "AGE-SECRET-KEY-" ->
                 ParseX25519Identity s
                 = Error (Err ("malformed secret key " ++ quote s
                               ++ ": invalid type " ++ quote t)))
             /\ (t = "AGE-SECRET-KEY-" -> List.length k <> 32%nat ->
                 ParseX25519Identity s
                 = Error (Err ("malformed secret key " ++ quote s
                               ++ ": invalid X25519 secret key")))))
  /\ (Bech32Laws ->
      (forall r s,
          bech32_Encode "age" (theirPublicKey r) = ok s ->
          ParseX25519Identity (X25519Recipient_String r)
          = Error (Err ("malformed secret key " ++ quote s
                        ++ ": invalid type " ++ quote "age")))
      /\ (forall i s,
             bech32_Encode "AGE-SECRET-KEY-" (secretKey i) = ok s ->
             ParseX25519Recipient (X25519Identity_String i)
             = Error (Err ("malformed recipient " ++ quote s
                           ++ ": invalid type "
                           ++ quote "AGE-SECRET-KEY-")))).
Proof.
  split.
  - intros s. unfold ParseX25519Recipient, ParseX25519Identity. split.
    + intros msg ->. split; reflexivity.
    + intros t k ->. repeat split.
      * intros Ht. apply String.eqb_neq in Ht. rewrite Ht. reflexivity.
      * intros -> Hk. cbn [String.eqb Ascii.eqb Bool.eqb negb].
        replace ("age" =? "age")%string with true by reflexivity.
        cbn [negb]. unfold NewX25519Recipient.
        apply Nat.eqb_neq in Hk. change PointSize with 32%nat.
        rewrite Hk. reflexivity.
      * intros Ht. apply String.eqb_neq in Ht. rewrite Ht. reflexivity.
      * intros -> Hk.
        replace ("AGE-SECRET-KEY-" =? "AGE-SECRET-KEY-")%string
          with true by reflexivity.
        cbn [negb]. unfold NewX25519Identity.
        apply Nat.eqb_neq in Hk. change ScalarSize with 32%nat.
        rewrite Hk. reflexivity.
  - intros laws. split.
    + intros r s Henc. unfold X25519Recipient_String, ParseX25519Identity.
      rewrite Henc, (bech32_roundtrip laws _ _ _ Henc). reflexivity.
    + intros i s Henc. unfold X25519Identity_String, ParseX25519Recipient.
      rewrite Henc, (bech32_upper laws _ _ Henc).
      rewrite (bech32_roundtrip laws _ _ _ Henc). reflexivity.
Qed.

End KeysAsText.

(** ** The executable environments keep the further laws *)

Section TestLaws.
Import TestEnv TestText.

Lemma TestEnv_wrap_laws : WrapLaws (E := env).
Proof.
  constructor; cbn [rand_Read headerMAC Atoi EncodeToString DecodeString
                    aeadEncrypt aeadDecrypt env].
  - intros n rng b rng'. unfold t_rand_Read.
    destruct (Nat.ltb_spec (List.length rng) n) as [Hlt | Hge];
      [discriminate |].
    intros H. injection H as <- _. rewrite length_firstn. lia.
  - reflexivity.
  - intros z Hz. destruct z as [| p | p]; try lia.
    repeat (destruct p as [p | p |]; try lia; try reflexivity).
  - intros b. rewrite list_byte_of_string_of_list_byte. reflexivity.
  - apply t_aead_roundtrip.
Qed.

Lemma split_at_app (a b : string) :
  split_at (String.length a) (a ++ b) = Some (a, b).
Proof.
  induction a as [| c a IH]; cbn; [destruct b; reflexivity |].
  rewrite IH. reflexivity.
Qed.

Lemma bytes_of_letters_of_bytes (d : bytes) :
  bytes_of_letters (letters_of_bytes d) = Some d.
Proof.
  induction d as [| b d IH]; [reflexivity |].
  cbn [letters_of_bytes]. unfold letters_of_byte.
  cbn [append bytes_of_letters]. rewrite IH.
  destruct b; reflexivity.
Qed.

Lemma t_ToUpper_app (a b : string) :
  t_ToUpper (a ++ b) = (t_ToUpper a ++ t_ToUpper b)%string.
Proof. induction a as [| c a IH]; cbn; [| rewrite IH]; reflexivity. Qed.

Lemma t_ToUpper_letters (d : bytes) :
  t_ToUpper (letters_of_bytes d) = letters_of_bytes d.
Proof.
  induction d as [| b d IH]; [reflexivity |].
  cbn [letters_of_bytes]. rewrite t_ToUpper_app, IH. f_equal.
  destruct b; reflexivity.
Qed.

Lemma TestText_laws : Bech32Laws (T := text).
Proof.
  constructor; cbn [bech32_Encode bech32_Decode strings_ToUpper text].
  - intros hrp data s. unfold t_Encode.
    destruct (Nat.ltb_spec (String.length hrp) 256) as [Hlt | Hge];
      [| discriminate].
    intros H. injection H as <-. unfold t_Decode.
    rewrite nat_ascii_embedding by exact Hlt.
    rewrite split_at_app, bytes_of_letters_of_bytes. reflexivity.
  - intros data s. unfold t_Encode. cbn [String.length Nat.ltb Nat.leb].
    intros H.
    assert (Hs : s = (String (ascii_of_nat 15) "AGE-SECRET-KEY-"
                      ++ letters_of_bytes data)%string)
      by (injection H as <-; reflexivity).
    rewrite Hs, t_ToUpper_app, t_ToUpper_letters. reflexivity.
Qed.

End TestLaws.

(** ** More runs on the test vectors *)

Section MoreRuns.
Import TestEnv TestText Vectors Vectors2.

Lemma Encrypt_success_witness :
  Encrypt [] [alice_recipient] (tape 1)
  = (events1, Ok (writer alice_header), written alice_header, [])
  /\ exists fileKey hdr nonce,
       encrypted [] [alice_recipient] (tape 1) fileKey hdr nonce
                 (writer alice_header) (written alice_header) []
       /\ events1
          = (EvRandRead 16 :: map (fun i => EvWrap i None) (seq 0 1)
             ++ [EvHeaderMAC fileKey; EvMarshal; EvRandRead 16;
                 EvWriteNonce; EvNewWriter])%list.
Proof.
  assert (Hrun : Encrypt [] [alice_recipient] (tape 1)
                 = (events1, Ok (writer alice_header),
                    written alice_header, [])) by reflexivity.
  split; [exact Hrun |].
  destruct (proj1 (Encrypt_success (E := env) [] [alice_recipient] (tape 1)
                     events1 (writer alice_header) (written alice_header)
                     []) Hrun) as (_ & _ & H).
  exact H.
Defined.

Lemma Decrypt_success_sound_witness :
  Decrypt (source alice_header) [X25519Identity_iface alice]
  = (events_alice, Ok rest_reader)
  /\ exists hdr payload fileKey nonce payload',
       Parse (source alice_header) = ok (hdr, payload)
       /\ headerMAC fileKey hdr = ok (MAC hdr)
       /\ io_ReadFull 16 payload = (ok nonce, payload')
       /\ stream_NewReader (streamKey fileKey nonce) payload'
          = ok rest_reader.
Proof.
  assert (Hrun : Decrypt (source alice_header) [X25519Identity_iface alice]
                 = (events_alice, Ok rest_reader)) by reflexivity.
  split; [exact Hrun |].
  destruct (Decrypt_success_sound (E := env) (source alice_header)
              [X25519Identity_iface alice] events_alice rest_reader Hrun)
    as (hdr & payload & fileKey & nonce & payload' & _ & Hp & _ & _
        & Hmac & Hread & Hnew).
  exists hdr, payload, fileKey, nonce, payload'. auto.
Defined.

Lemma Decrypt_finds_first_match_witness :
  nth_error (Recipients two_header) 1 = Some stanza_alice
  /\ nth_error [probe; ScryptIdentity_iface pass_identity;
                X25519Identity_iface alice] 2
     = Some (X25519Identity_iface alice)
  /\ snd (Decrypt (source two_header)
                  [probe; ScryptIdentity_iface pass_identity;
                   X25519Identity_iface alice])
     = snd (verifyAndOpen two_header payload0 fileKey0).
Proof.
  split; [reflexivity |]. split; [reflexivity |].
  refine (proj1 (Decrypt_finds_first_match (E := env) (source two_header)
                   [probe; ScryptIdentity_iface pass_identity;
                    X25519Identity_iface alice]
                   two_header payload0 1 2 stanza_alice
                   (X25519Identity_iface alice) fileKey0
                   eq_refl _ _ eq_refl eq_refl eq_refl
                   (or_introl eq_refl) eq_refl _)).
  - cbn. lia.
  - intros [[r [Hin Hty]] _].
    destruct Hin as [<- | [<- | []]]; discriminate Hty.
  - intros s' r' i' id' Hr Hi Hty Hlt.
    destruct s' as [| [| s']]; [| | lia].
    + assert (Hr' : r' = stanza_other) by (injection Hr as <-; reflexivity).
      subst r'.
      destruct i' as [| [| [| i']]];
        try (destruct i'; discriminate Hi);
        (assert (Hid : exists x, Some x = Some id' /\ id_Type x <> "ssh-ed25519")
           by (eexists; split; [exact Hi | discriminate]));
        destruct Hid as (x & Hx & Hne); injection Hx as <-;
        exfalso; apply Hne; exact Hty.
    + assert (Hr' : r' = stanza_alice) by (injection Hr as <-; reflexivity).
      subst r'.
      destruct i' as [| [| i']]; [| | lia].
      * assert (Hid : id' = probe) by (injection Hi as <-; reflexivity).
        subst id'. left. reflexivity.
      * assert (Hid : id' = ScryptIdentity_iface pass_identity)
          by (injection Hi as <-; reflexivity).
        subst id'. discriminate Hty.
Defined.

Lemma pipeline_errors_not_sentinel_witness :
  snd (Decrypt (source scrypt_header) [ScryptIdentity_iface pass_identity9])
  = Error (Err "scrypt work factor too large: 10")
  /\ Err "scrypt work factor too large: 10" <> ErrIncorrectIdentity.
Proof.
  split; [reflexivity |].
  apply (proj1 (pipeline_errors_not_sentinel (E := env))
           (source scrypt_header) [ScryptIdentity_iface pass_identity9]).
  reflexivity.
Defined.

Lemma Decrypt_fileKey_assignment_witness :
  id_Unwrap leaky stanza_alice = (Some fileKey0, Some ErrIncorrectIdentity)
  /\ Decrypt (source alice_header) [leaky]
     = (EvParse :: EvUnwrap 0 0 (Some fileKey0) (Some ErrIncorrectIdentity)
          :: fst (verifyAndOpen alice_header payload0 fileKey0),
        snd (verifyAndOpen alice_header payload0 fileKey0))
  /\ id_Unwrap hollow stanza_alice = (None, None)
  /\ Decrypt (source twice_header) [hollow; X25519Identity_iface alice]
     = ([EvParse; EvUnwrap 0 0 None None],
        Error (Err "no identity matched a recipient")).
Proof.
  split; [reflexivity |]. split; [| split; [reflexivity |]].
  - apply (proj1 (Decrypt_fileKey_assignment (E := env))
             (source alice_header) alice_header payload0 stanza_alice leaky
             fileKey0); reflexivity.
  - apply (proj2 (Decrypt_fileKey_assignment (E := env))
             (source twice_header) twice_header payload0 stanza_alice
             [stanza_alice] hollow [X25519Identity_iface alice]);
      try reflexivity; [cbn; lia | discriminate].
Defined.

Lemma Scrypt_wrap_unwrap_witness :
  ScryptRecipient_Wrap pass_recipient fileKey0 (repeat x05 16)
  = ((calls10, Ok stanza_scrypt), [])
  /\ ScryptIdentity_Unwrap pass_identity stanza_scrypt
     = (calls10, (Some fileKey0, None))
  /\ ScryptIdentity_Unwrap pass_identity9 stanza_scrypt
     = ([], (None, Some (Err "scrypt work factor too large: 10"))).
Proof.
  assert (Hwrap :
    ScryptRecipient_Wrap pass_recipient fileKey0 (repeat x05 16)
    = ((calls10, Ok stanza_scrypt), [])) by reflexivity.
  split; [exact Hwrap |]. split.
  - destruct (Scrypt_wrap_unwrap (E := env) pass_recipient pass_identity
                fileKey0 (repeat x05 16) [] calls10 stanza_scrypt
                TestEnv_wrap_laws) as (_ & Hok & _);
      [cbn; lia | reflexivity | discriminate | exact Hwrap |].
    apply Hok. cbn. lia.
  - destruct (Scrypt_wrap_unwrap (E := env) pass_recipient pass_identity9
                fileKey0 (repeat x05 16) [] calls10 stanza_scrypt
                TestEnv_wrap_laws) as (_ & _ & Hbig);
      [cbn; lia | reflexivity | discriminate | exact Hwrap |].
    apply Hbig. cbn. lia.
Defined.

Lemma NewScrypt_defaults_witness :
  "password" <> ""
  /\ exists r i,
       NewScryptRecipient "password" = Ok r
       /\ NewScryptIdentity "password" = Ok i
       /\ workFactor r = 18
       /\ maxWorkFactor i = 22
       /\ opens (ScryptIdentity_iface i) (ScryptRecipient_iface r).
Proof.
  split; [discriminate |].
  destruct (proj2 (NewScrypt_defaults (E := env) "password"))
    as (r & i & Hr & Hi & _ & _ & Hw & Hm & Hopen); [discriminate |].
  destruct (Hopen TestEnv_wrap_laws) as [Ho _].
  exists r, i. auto 6.
Defined.

Lemma NewX25519_keys_witness :
  List.length alice_secret = 32%nat
  /\ NewX25519Recipient alice_secret = Ok {| theirPublicKey := alice_secret |}
  /\ exists i,
       NewX25519Identity alice_secret = Ok i
       /\ secretKey i = alice_secret
       /\ NewX25519Recipient (ourPublicKey i)
          = Ok (X25519Identity_Recipient i).
Proof.
  split; [reflexivity |].
  destruct (proj2 (NewX25519_keys (E := env) alice_secret) eq_refl)
    as (Hr & i & Hi & Hsk & _ & _ & Hpub).
  split; [exact Hr |]. exists i. auto using TestEnv_laws.
Defined.

Lemma GenerateX25519Identity_ok_witness :
  rand_Read 32 alice_secret = (ok alice_secret, [])
  /\ exists i,
       GenerateX25519Identity alice_secret = (Ok i, [])
       /\ NewX25519Identity alice_secret = Ok i
       /\ opens (X25519Identity_iface i)
                (X25519Recipient_iface (X25519Identity_Recipient i)).
Proof.
  split; [reflexivity |].
  destruct (proj2 (GenerateX25519Identity_ok (E := env) alice_secret)
              TestEnv_wrap_laws alice_secret [] eq_refl)
    as (i & Hgen & Hnew & _ & Hopen).
  exists i. auto using TestEnv_laws.
Defined.

Lemma Encrypt_then_Decrypt_witness :
  Encrypt [] [alice_recipient] (tape 1)
  = (events1, Ok (writer alice_header), written alice_header, [])
  /\ exists fileKey hdr nonce,
       encrypted [] [alice_recipient] (tape 1) fileKey hdr nonce
                 (writer alice_header) (written alice_header) []
       /\ forall src payload others nonce' payload',
            Parse src = ok (hdr, payload) ->
            io_ReadFull 16 payload = (ok nonce', payload') ->
            Decrypt src (X25519Identity_iface alice :: others)
            = ([EvParse; EvUnwrap 0 0 (Some fileKey) None;
                EvHeaderMAC fileKey; EvReadNonce; EvNewReader],
               match stream_NewReader (streamKey fileKey nonce') payload'
               with
               | ok rd => Ok rd
               | failed msg => Error (Err msg)
               end).
Proof.
  assert (Hrun : Encrypt [] [alice_recipient] (tape 1)
                 = (events1, Ok (writer alice_header),
                    written alice_header, [])) by reflexivity.
  split; [exact Hrun |].
  apply (Encrypt_then_Decrypt (E := env) [] alice_recipient [] (tape 1)
           events1 (writer alice_header) (written alice_header) []
           (X25519Identity_iface alice) TestEnv_wrap_laws);
    [| cbn; lia | exact Hrun].
  apply (X25519_opens (E := env) alice_secret alice TestEnv_laws).
  reflexivity.
Defined.

Lemma Encrypt_beyond_Decrypt_limit_witness :
  (20 < List.length (repeat alice_recipient 21))%nat
  /\ snd (fst (fst (Encrypt [] (repeat alice_recipient 21) (tape 21))))
     = Ok (writer long_header)
  /\ exists fileKey hdr nonce,
       encrypted [] (repeat alice_recipient 21) (tape 21) fileKey hdr nonce
                 (writer long_header) (written long_header) []
       /\ List.length (Recipients hdr)
          = List.length (repeat alice_recipient 21)
       /\ forall src payload identities,
            identities <> [] ->
            Parse src = ok (hdr, payload) ->
            Decrypt src identities
            = ([EvParse], Error (Err "too many recipients")).
Proof.
  split; [cbn; lia |].
  assert (Hrun : Encrypt [] (repeat alice_recipient 21) (tape 21)
                 = (fst (fst (fst (Encrypt [] (repeat alice_recipient 21)
                                           (tape 21)))),
                    Ok (writer long_header), written long_header, []))
    by (vm_compute; reflexivity).
  split; [rewrite Hrun; reflexivity |].
  apply (Encrypt_beyond_Decrypt_limit (E := env) []
           (repeat alice_recipient 21) (tape 21) _ _ _ _
           ltac:(cbn; lia) Hrun).
Defined.

Lemma X25519_text_roundtrip_witness :
  exists s t,
    bech32_Encode "age" (ourPublicKey alice) = ok s
    /\ ParseX25519Recipient s = Ok (X25519Identity_Recipient alice)
    /\ bech32_Encode "AGE-SECRET-KEY-" alice_secret = ok t
    /\ X25519Identity_String alice = t
    /\ ParseX25519Identity t = Ok alice.
Proof.
  destruct (X25519_text_roundtrip (E := env) (T := text) TestText_laws)
    as [Hr Hi].
  eexists. eexists.
  split; [reflexivity |].
  split; [apply (Hr (ourPublicKey alice)); reflexivity |].
  split; [reflexivity |].
  apply (Hi alice_secret alice); reflexivity.
Defined.

Lemma X25519_parse_rejects_witness :
  exists s,
    bech32_Encode "age" (ourPublicKey alice) = ok s
    /\ ParseX25519Identity
         (X25519Recipient_String (X25519Identity_Recipient alice))
       = Error (Err ("malformed secret key " ++ quote s
                     ++ ": invalid type " ++ quote "age")).
Proof.
  destruct (X25519_parse_rejects (E := env) (T := text)) as [_ Hcross].
  destruct (Hcross TestText_laws) as [Hr _].
  eexists. split; [reflexivity |].
  apply (Hr (X25519Identity_Recipient alice)). reflexivity.
Defined.

Lemma Encrypt_failure_destination_witness :
  Encrypt [] [alice_recipient] (fileKey0 ++ repeat x11 32)%list
  = ([EvRandRead 16; EvWrap 0 None; EvHeaderMAC fileKey0; EvMarshal;
      EvRandRead 16],
     Error (Err "rand: no entropy left"), [WHeader alice_header], [])
  /\ ([WHeader alice_header] = []
      \/ exists fileKey rng1 stanzas rng2 mac dst1 msg,
           rand_Read 16 (fileKey0 ++ repeat x11 32)%list = (ok fileKey, rng1)
           /\ wraps fileKey rng1 [alice_recipient] stanzas rng2
           /\ Marshal {| Recipients := stanzas; MAC := mac |} []
              = (None, dst1)
           /\ rand_Read 16 rng2 = (failed msg, [])
           /\ [WHeader alice_header] = dst1).
Proof.
  assert (Hrun :
    Encrypt [] [alice_recipient] (fileKey0 ++ repeat x11 32)%list
    = ([EvRandRead 16; EvWrap 0 None; EvHeaderMAC fileKey0; EvMarshal;
        EvRandRead 16],
       Error (Err "rand: no entropy left"), [WHeader alice_header], []))
    by reflexivity.
  split; [exact Hrun |].
  destruct (Encrypt_failure_destination (E := env) _ _ _ _ _ _ _ Hrun)
    as [H | (fileKey & rng1 & stanzas & rng2 & mac & Hkey & Hw & _ & Hlate)];
    [left; exact H |].
  right.
  destruct Hlate as [(msg & Hm & _) | (dst1 & Hm & Hrest)];
    [discriminate Hm |].
  destruct Hrest as [(msg & Hn & Hd & _) | (nonce & Hn & Hrest)].
  - exists fileKey, rng1, stanzas, rng2, mac, dst1, msg. auto 6.
  - exfalso.
    destruct Hrest as [(msg & Hwr & _) | (msg & _ & Hnw & _)];
      discriminate.
Defined.

End MoreRuns.
